(** * MSL utils: track correlation and request encoding

    A shallow embedding of
    [resources/lib/services/nfsession/msl/msl_utils.py] together with the
    properties its specification states about it.

    Conventions of the embedding:
    - Python [int] is [Z]; Python [str] is [string], read as a sequence of
      code points below 256 (one [ascii] per code point);
    - a [dict] with a fixed set of keys is a [Record], with one field per
      key the module reads; [AUDIO_CHANNELS_CONV] and the session table of
      the local database, which are looked up by key, are [gmap]s;
    - a call that may raise returns a [result]: [Return v] or [Raise e];
      for the decorator [e] ranges over all that Python can raise, inside
      and outside the class [Exception];
    - functions of other modules ([common], [ui]) are [Variable]s of the
      section. *)

From Stdlib Require Import ZArith String Ascii List Bool Lia.
From Stdlib Require Import DecimalString.
From stdpp Require Import base option list gmap strings.

Local Open Scope Z_scope.

(** ** Outcomes of a call *)

Inductive result (E A : Type) : Type :=
| Return (v : A)
| Raise (e : E).
Arguments Return {E A} v.
Arguments Raise {E A} e.

(** Sequencing: a raised exception skips the rest, as in Python. *)
Global Instance result_ret {E} : MRet (result E) := fun _ v => Return v.
Global Instance result_bind {E} : MBind (result E) := fun _ _ k c =>
  match c with
  | Return v => k v
  | Raise e => Raise e
  end.

(** The exceptions the matchers raise. [Exception msg] is the plain
    [raise Exception(f'...')] of the three [_find_*_data] functions,
    [KeyError key] comes from indexing [AUDIO_CHANNELS_CONV] with [key],
    [ValueError] from [max] over an empty sequence. *)
Inductive exn : Type :=
| KeyError (key : Z)
| ValueError
| Exception (msg : string).

(** ** Strings *)

(** [str(n)] of an [int]. *)
Definition str_of_int (n : Z) : string :=
  NilZero.string_of_int (Z.to_int n).

(** [sub in s] for two [str]. *)
Fixpoint str_contains (sub s : string) : bool :=
  String.prefix sub s ||
  match s with
  | EmptyString => false
  | String _ s' => str_contains sub s'
  end.

(** ** Data model *)

(** [player_state['currentaudiostream']]. *)
Record audio_stream_info := {
  as_language : string;
  as_channels : Z
}.

(** [player_state['currentvideostream']]. *)
Record video_stream_info := {
  vs_codec : string;
  vs_width : Z;
  vs_height : Z
}.

(** [player_state['currentsubtitle']]: carried by the player state,
    never read by this module. *)
Record subtitle_info := {
  ss_language : string;
  ss_isforced : bool
}.

Record player_state := {
  currentvideostream : video_stream_info;
  currentaudiostream : audio_stream_info;
  currentsubtitle : subtitle_info;
  elapsed_seconds : Z
}.

(** An entry of [audio_track['streams']]. *)
Record audio_stream := {
  a_downloadable_id : string;
  a_bitrate : Z
}.

Record audio_track := {
  at_language : string;
  at_channels : string;
  at_new_track_id : string;
  at_streams : list audio_stream
}.

(** An entry of [video_track['streams']]. *)
Record video_stream := {
  v_downloadable_id : string;
  v_content_profile : string;
  v_res_w : Z;
  v_res_h : Z
}.

Record video_track := {
  vt_new_track_id : string;
  vt_streams : list video_stream
}.

(** An entry of [manifest['timedtexttracks']]; the language is part of
    the manifest but is not read here. *)
Record sub_track := {
  st_new_track_id : string;
  st_isNoneTrack : bool;
  st_language : string
}.

Record manifest := {
  audio_tracks : list audio_track;
  video_tracks : list video_track;
  timedtexttracks : list sub_track
}.

(** An entry of [play_times['audio']] and [play_times['video']]. *)
Record play_time_entry := {
  downloadableId : string;
  duration : Z
}.

Record play_times := {
  total : Z;
  audio : list play_time_entry;
  video : list play_time_entry;
  text : list play_time_entry
}.

(** ** Channel table *)

Definition AUDIO_CHANNELS_CONV : gmap Z string :=
  {[ 1 := "1.0"%string; 2 := "2.0"%string;
     6 := "5.1"%string; 8 := "7.1"%string ]}.

(** ** Change detection *)

Definition audio_info_eqb (a b : audio_stream_info) : bool :=
  String.eqb (as_language a) (as_language b) &&
  (as_channels a =? as_channels b).

Definition video_info_eqb (a b : video_stream_info) : bool :=
  String.eqb (vs_codec a) (vs_codec b) &&
  (vs_width a =? vs_width b) && (vs_height a =? vs_height b).

(** [previous_player_state] is [None] before the first tick. *)
Definition is_media_changed (previous_player_state : option player_state)
    (player_state : player_state) : bool :=
  match previous_player_state with
  | None => true
  | Some previous =>
      if negb (video_info_eqb (currentvideostream player_state)
                              (currentvideostream previous))
         || negb (audio_info_eqb (currentaudiostream player_state)
                                 (currentaudiostream previous))
      then true
      else false
  end.

(** ** Stream matchers *)

(** [max(streams, key=lambda x: x['bitrate'])]: the running maximum is
    replaced only by a strictly greater key. *)
Fixpoint max_bitrate_from (best : audio_stream) (streams : list audio_stream)
    : audio_stream :=
  match streams with
  | [] => best
  | s :: rest =>
      if a_bitrate best <? a_bitrate s
      then max_bitrate_from s rest
      else max_bitrate_from best rest
  end.

Definition max_bitrate (streams : list audio_stream)
    : result exn audio_stream :=
  match streams with
  | [] => Raise ValueError
  | s :: rest => Return (max_bitrate_from s rest)
  end.

Definition audio_not_found (language channels : string) : exn :=
  Exception ("build_media_tag: unable to find audio data with language: "
             +:+ language +:+ ", channels: " +:+ channels).

Definition audio_track_matches (language channels : string) (t : audio_track)
    : bool :=
  String.eqb (at_language t) language && String.eqb (at_channels t) channels.

(** The [for audio_track in manifest['audio_tracks']] loop. *)
Fixpoint find_audio_track (language channels : string)
    (tracks : list audio_track) : result exn (string * string) :=
  match tracks with
  | [] => Raise (audio_not_found language channels)
  | t :: rest =>
      if audio_track_matches language channels t
      then
        stream ← max_bitrate (at_streams t);
        Return (a_downloadable_id stream, at_new_track_id t)
      else find_audio_track language channels rest
  end.

Definition video_not_found (codec : string) (width height : Z) : exn :=
  Exception ("build_media_tag: unable to find video data with codec: "
             +:+ codec +:+ ", width: " +:+ str_of_int width
             +:+ ", height: " +:+ str_of_int height).

Definition video_stream_matches (codec : string) (width height : Z)
    (s : video_stream) : bool :=
  str_contains codec (v_content_profile s)
  && (width =? v_res_w s) && (height =? v_res_h s).

(** The inner [for stream in video_track['streams']] loop: [Some] when it
    returns, [None] when it runs to its end. *)
Fixpoint find_video_stream (codec : string) (width height : Z)
    (streams : list video_stream) : option video_stream :=
  match streams with
  | [] => None
  | s :: rest =>
      if video_stream_matches codec width height s then Some s
      else find_video_stream codec width height rest
  end.

(** The outer [for video_track in manifest['video_tracks']] loop. *)
Fixpoint find_video_track (codec : string) (width height : Z)
    (tracks : list video_track) : result exn (string * string) :=
  match tracks with
  | [] => Raise (video_not_found codec width height)
  | t :: rest =>
      match find_video_stream codec width height (vt_streams t) with
      | Some s => Return (v_downloadable_id s, vt_new_track_id t)
      | None => find_video_track codec width height rest
      end
  end.

Definition _find_video_data (player_state : player_state) (manifest : manifest)
    : result exn (string * string) :=
  let codec := vs_codec (currentvideostream player_state) in
  let width := vs_width (currentvideostream player_state) in
  let height := vs_height (currentvideostream player_state) in
  find_video_track codec width height (video_tracks manifest).

Definition subtitle_not_found : exn :=
  Exception "build_media_tag: unable to find subtitle data".

Fixpoint find_none_track (tracks : list sub_track) : result exn string :=
  match tracks with
  | [] => Raise subtitle_not_found
  | t :: rest =>
      if st_isNoneTrack t then Return (st_new_track_id t)
      else find_none_track rest
  end.

Definition _find_subtitle_data (manifest : manifest) : result exn string :=
  find_none_track (timedtexttracks manifest).

(** ** String operations of the Python runtime *)

(** The double quote, code point 34. *)
Definition dquote : ascii := "034"%char.

(** [s.replace(old, new)] for a non-empty [old]: occurrences are found left
    to right and do not overlap; [skip] counts the characters of the
    occurrence just replaced that are still to be passed over. *)
Fixpoint str_replace_from (old new s : string) (skip : nat) : string :=
  match s with
  | EmptyString => EmptyString
  | String c s' =>
      match skip with
      | S k => str_replace_from old new s' k
      | O =>
          if String.prefix old s
          then new +:+ str_replace_from old new s'
                         (Nat.pred (String.length old))
          else String c (str_replace_from old new s' O)
      end
  end.

Definition str_replace (old new s : string) : string :=
  str_replace_from old new s O.

(** [s.lower()] on code points below 256: [A-Z] and the capital letters
    of the Latin-1 block (192 to 222, the multiplication sign 215 apart)
    move up by 32. *)
Definition lower_char (c : ascii) : ascii :=
  let n := N_of_ascii c in
  if ((65 <=? n) && (n <=? 90)
      || (192 <=? n) && (n <=? 222) && negb (n =? 215))%N
  then ascii_of_N (n + 32)
  else c.

Fixpoint str_lower (s : string) : string :=
  match s with
  | EmptyString => EmptyString
  | String c s' => String (lower_char c) (str_lower s')
  end.

Definition hex_digit (digits : string) (n : N) : ascii :=
  match String.get (N.to_nat n) digits with
  | Some c => c
  | None => "0"%char
  end.

(** ** [json.dumps] *)

#[local] Unset Elimination Schemes.
Inductive json : Type :=
| JStr (s : string)
| JInt (n : Z)
| JList (items : list json)
| JDict (items : list (string * json)).
#[local] Set Elimination Schemes.

(** One character of [py_encode_basestring_ascii]: printable ASCII stays,
    the quote and the backslash get a backslash, the five short escapes
    are used, anything else becomes [\u00xx]. *)
Definition json_escape_char (c : ascii) : string :=
  let n := N_of_ascii c in
  if (n =? 34)%N then String "\"%char (String dquote EmptyString)
  else if (n =? 92)%N then "\\"
  else if (n =? 10)%N then "\n"
  else if (n =? 13)%N then "\r"
  else if (n =? 9)%N then "\t"
  else if (n =? 12)%N then "\f"
  else if (n =? 8)%N then "\b"
  else if ((32 <=? n) && (n <=? 126))%N then String c EmptyString
  else "\u00" +:+ String (hex_digit "0123456789abcdef" (n / 16))
                   (String (hex_digit "0123456789abcdef" (n mod 16))
                           EmptyString).

Fixpoint json_escape (s : string) : string :=
  match s with
  | EmptyString => EmptyString
  | String c s' => json_escape_char c +:+ json_escape s'
  end.

Definition json_str (s : string) : string :=
  String dquote (json_escape s +:+ String dquote EmptyString).

(** [json.dumps(j)] with the default separators [', '] and [': ']. *)
Fixpoint json_dumps (j : json) : string :=
  match j with
  | JStr s => json_str s
  | JInt n => str_of_int n
  | JList items => "[" +:+ String.concat ", " (map json_dumps items) +:+ "]"
  | JDict items =>
      "{" +:+ String.concat ", "
                (map (fun '(k, v) => json_str k +:+ ": " +:+ json_dumps v)
                     items)
          +:+ "}"
  end.

(** ** [urllib.parse.urlencode] *)

(** UTF-8 encoding of a code point below 256. *)
Definition utf8_char (c : ascii) : list N :=
  let n := N_of_ascii c in
  if (n <? 128)%N then [n]
  else [192 + n / 64; 128 + n mod 64]%N.

Definition utf8_encode (s : string) : list N :=
  flat_map utf8_char (list_ascii_of_string s).

(** [_ALWAYS_SAFE]: letters, digits and [_.-~]. *)
Definition always_safe (b : N) : bool :=
  ((65 <=? b) && (b <=? 90) || (97 <=? b) && (b <=? 122)
   || (48 <=? b) && (b <=? 57)
   || (b =? 95) || (b =? 46) || (b =? 45) || (b =? 126))%N.

(** One byte of [quote_from_bytes]; [keep_space] is whether the space
    was added to [safe]. *)
Definition quote_byte (keep_space : bool) (b : N) : string :=
  if always_safe b || keep_space && (b =? 32)%N
  then String (ascii_of_N b) EmptyString
  else String "%"%char
         (String (hex_digit "0123456789ABCDEF" (b / 16))
            (String (hex_digit "0123456789ABCDEF" (b mod 16)) EmptyString)).

Definition quote (keep_space : bool) (s : string) : string :=
  String.concat "" (map (quote_byte keep_space) (utf8_encode s)).

(** [quote_plus(s, safe='')]. *)
Definition quote_plus (s : string) : string :=
  if str_contains " " s
  then str_replace " " "+" (quote true s)
  else quote false s.

(** [urlencode(params)] for a list of pairs of [str]. *)
Definition urlencode (params : list (string * string)) : string :=
  String.concat "&"
    (map (fun '(k, v) => quote_plus k +:+ "=" +:+ quote_plus v) params).

(** ** The host: what the add-on reads from Kodi and its database *)

Record host := {
  screen_width : Z;                    (* xbmcgui.getScreenWidth() *)
  screen_height : Z;                   (* xbmcgui.getScreenHeight() *)
  user_agent : string;                 (* common.get_user_agent() *)
  session_table : gmap string string;  (* G.LOCAL_DB, table TABLE_SESSION *)
  random_uuid : string;                (* common.get_random_uuid() *)
  esn : string;                        (* get_esn() *)
  clock_ms : Z;                        (* int(timestamp_utc * 1000) *)
  clock_s : Z;                         (* int(timestamp_utc) *)
  clock_s' : Z;                        (* int(time.time()), second reading *)
  randint_1_10001 : Z                  (* SystemRandom().randint(1, 10001) *)
}.

(** [G.LOCAL_DB.get_value(key, default, table=TABLE_SESSION)]. *)
Definition get_value (h : host) (key default_value : string) : string :=
  default default_value (session_table h !! key).

(** ** Log blob *)

Definition logblob (h : host) : json :=
  let screen_size :=
    str_of_int (screen_width h) +:+ "x" +:+ str_of_int (screen_height h) in
  let timestamp := clock_ms h in
  let app_id := clock_s' h * 10000 + randint_1_10001 h in
  JDict [
    ("browserua", JStr (str_replace " " "#" (user_agent h)));
    ("browserhref", JStr "https://www.netflix.com/browse");
    ("screensize", JStr screen_size);
    ("screenavailsize", JStr screen_size);
    ("clientsize", JStr screen_size);
    ("type", JStr "startup");
    ("sev", JStr "info");
    ("devmod", JStr "chrome-cadmium");
    ("clver", JStr (get_value h "client_version" ""));
    ("osplatform", JStr (get_value h "browser_info_os_name" ""));
    ("osver", JStr (get_value h "browser_info_os_version" ""));
    ("browsername", JStr "Chrome");
    ("browserver", JStr (get_value h "browser_info_version" ""));
    ("appLogSeqNum", JInt 0);
    ("uniqueLogId", JStr (random_uuid h));
    ("appId", JInt app_id);
    ("esn", JStr (esn h));
    ("lver", JStr "");
    ("clienttime", JInt timestamp);
    ("client_utc", JInt (clock_s h));
    ("uiver", JStr (get_value h "ui_version" ""))
  ]%string.

(** [json.dumps(blobs_container)]. *)
Definition blobs_dump (h : host) : string :=
  json_dumps (JDict [("entries"%string, JList [logblob h])]).

(** The three chained [replace] calls. The second argument of the first
    call is written backslash-quote between single quotes, which in Python
    source denotes the one-character string holding a double quote: the
    first call replaces each double quote by itself. *)
Definition escape_blobs_dump (dump : string) : string :=
  str_replace "#" " "
    (str_replace " " ""
       (str_replace (String dquote EmptyString) (String dquote EmptyString)
          dump)).

Definition generate_logblobs_params (h : host) : list (string * string) :=
  [("logblobs"%string, escape_blobs_dump (blobs_dump h))].

(** Undoing the marker substitution: each space back to [#]. *)
Definition unescape_blobs_dump (escaped : string) : string :=
  str_replace " " "#" escaped.

(** ** Request parameters *)

(** The list [params] of [create_req_params]. *)
Definition req_params (h : host) (req_name : string)
    : list (string * string) :=
  [ ("reqAttempt", "");
    ("reqName", req_name);
    ("clienttype", "akira");
    ("uiversion", get_value h "build_identifier" "");
    ("browsername", "chrome");
    ("browserversion", str_lower (get_value h "browser_info_version" ""));
    ("osname", str_lower (get_value h "browser_info_os_name" ""));
    ("osversion", get_value h "browser_info_os_version" "")
  ]%string.

Definition create_req_params (h : host) (req_name : string) : string :=
  "?" +:+ urlencode (req_params h req_name).

(** ** Exceptions as the failure reporter sees them *)

(** What [display_error_info] reads of what the decorated function
    raises. [is_Exception] tells the instances of [Exception], which the
    [except] clause catches, from the rest of [BaseException]
    ([KeyboardInterrupt], [SystemExit], [GeneratorExit]), which it lets
    through. [str(exc)] runs the [__str__] of the exception, which may
    itself raise. *)
Class PyException (E : Type) := {
  class_name : E -> string;          (* exc.__class__.__name__ *)
  exc_str : E -> result E string;    (* str(exc) *)
  is_Exception : E -> bool;          (* isinstance(exc, Exception) *)
  is_MSLError : E -> bool            (* isinstance(exc, MSLError) *)
}.

(** An exception given by these readings, with a [__str__] that returns. *)
Record raised := {
  raised_class : string;
  raised_str : string;
  raised_is_exception : bool;
  raised_msl : bool
}.

Global Instance raised_exception : PyException raised := {|
  class_name := raised_class;
  exc_str := fun exc => Return (raised_str exc);
  is_Exception := raised_is_exception;
  is_MSLError := raised_msl
|}.

(** One call of [ui.show_error_info]. *)
Record error_dialog := {
  dlg_title : string;
  dlg_message : string;
  dlg_unknown_error : bool;
  dlg_netflix_error : bool
}.

Section MslUtils.

Set Default Proof Using "Type".

(** [common.convert_language_iso]: the two-letter code of a language,
    the empty string when Kodi knows none. *)
Variable convert_language_iso : string -> string.

(** [common.apply_lang_code_changes]: the audio track list after the
    in-place rewriting of its language codes. *)
Variable apply_lang_code_changes : list audio_track -> list audio_track.

(** What the decorated code and the error handler can raise. *)
Context {E : Type} {E_exception : PyException E}.

(** [common.get_local_string]: a text of the add-on, or a raise. *)
Variable get_local_string : Z -> result E string.

(** The presentation layer: [world] is everything a call may change;
    [show_error_info] shows the dialog and returns, or raises, and leaves
    a world either way. *)
Variable world : Type.
Variable show_error_info :
  string -> string -> bool -> bool -> world -> result E unit * world.

(** *** Failure reporter *)

(** A decorated function takes its arguments and the world, and gives
    back an outcome and the world it leaves. The handler runs for the
    instances of [Exception] only; in it the message is formatted, the
    title fetched and the dialog shown, in this order, and a raise of one
    of these steps takes the place of the bare [raise] that ends it. *)
Definition display_error_info {Args A : Type}
    (func : Args -> world -> result E A * world)
    : Args -> world -> result E A * world :=
  fun args w =>
    match func args w with
    | (Return v, w') => (Return v, w')
    | (Raise exc, w') =>
        if is_Exception exc then
          match exc_str exc with
          | Raise e => (Raise e, w')
          | Return text =>
              let message := class_name exc +:+ ": " +:+ text in
              match get_local_string 30028 with
              | Raise e => (Raise e, w')
              | Return title =>
                  match show_error_info title message
                          (String.eqb message "") (is_MSLError exc) w' with
                  | (Raise e, w'') => (Raise e, w'')
                  | (Return _, w'') => (Raise exc, w'')
                  end
              end
          end
        else (Raise exc, w')
    end.

(** *** Audio matcher *)

Definition normalized_language (player_state : player_state) : string :=
  let language :=
    convert_language_iso (as_language (currentaudiostream player_state)) in
  if String.eqb language "" then as_language (currentaudiostream player_state)
  else language.

Definition _find_audio_data (player_state : player_state)
    (manifest : manifest) : result exn (string * string) :=
  let language := normalized_language player_state in
  let count := as_channels (currentaudiostream player_state) in
  match AUDIO_CHANNELS_CONV !! count with
  | None => Raise (KeyError count)
  | Some channels =>
      find_audio_track language channels (audio_tracks manifest)
  end.

(** *** Media tag *)

(** The manifest as the matchers see it, after
    [apply_lang_code_changes] has rewritten its audio tracks. *)
Definition with_lang_code_changes (m : manifest) : manifest :=
  {| audio_tracks := apply_lang_code_changes (audio_tracks m);
     video_tracks := video_tracks m;
     timedtexttracks := timedtexttracks m |}.

Definition build_media_tag (player_state : player_state)
    (manifest : manifest) (position : Z)
    : result exn (play_times * string * string * string) :=
  let manifest := with_lang_code_changes manifest in
  '(audio_downloadable_id, audio_track_id) ←
    _find_audio_data player_state manifest;
  '(video_downloadable_id, video_track_id) ←
    _find_video_data player_state manifest;
  text_track_id ← _find_subtitle_data manifest;
  let duration := position - 1 in
  let play_times :=
    {| total := duration;
       audio := [ {| downloadableId := audio_downloadable_id;
                     duration := duration |} ];
       video := [ {| downloadableId := video_downloadable_id;
                     duration := duration |} ];
       text := [] |} in
  Return (play_times, video_track_id, audio_track_id, text_track_id).

(** *** Play times update *)

(** The exception of indexing an empty list. *)
Inductive index_exn : Type := IndexError.

Definition set_duration (d : Z) (e : play_time_entry) : play_time_entry :=
  {| downloadableId := downloadableId e; duration := d |}.

(** [update_play_times_duration] assigns in place: the outcome comes with
    the play times as the call leaves them, so that an assignment made
    before an [IndexError] stays made. *)
Definition update_outcome : Type := result index_exn unit * play_times.

Definition update_play_times_duration (play_times : play_times)
    (player_state : player_state) : update_outcome :=
  let duration := elapsed_seconds player_state * 1000 in
  let play_times :=
    {| total := duration; audio := audio play_times;
       video := video play_times; text := text play_times |} in
  match audio play_times with
  | [] => (Raise IndexError, play_times)
  | first :: others =>
      let play_times :=
        {| total := total play_times;
           audio := set_duration duration first :: others;
           video := video play_times; text := text play_times |} in
      match video play_times with
      | [] => (Raise IndexError, play_times)
      | first :: others =>
          (Return tt,
           {| total := total play_times; audio := audio play_times;
              video := set_duration duration first :: others;
              text := text play_times |})
      end
  end.

(** ** Vocabulary of the statements *)

Definition not_none_track (t : sub_track) : Prop := st_isNoneTrack t = false.


(** [s] is the first stream of [streams] with the greatest bitrate. *)
Definition first_max_bitrate (s : audio_stream) (streams : list audio_stream)
    : Prop :=
  exists before after,
    streams = before ++ s :: after
    /\ Forall (fun x => a_bitrate x < a_bitrate s) before
    /\ Forall (fun x => a_bitrate x <= a_bitrate s) after.

Definition audio_mismatch (language channels : string) (t : audio_track)
    : Prop :=
  audio_track_matches language channels t = false.

Definition video_mismatch (codec : string) (width height : Z)
    (s : video_stream) : Prop :=
  video_stream_matches codec width height s = false.

(** [t] is the only track of [tracks] with this language and label. *)
Definition only_audio_match (language channels : string) (t : audio_track)
    (tracks : list audio_track) : Prop :=
  exists before after,
    tracks = before ++ t :: after
    /\ audio_track_matches language channels t = true
    /\ Forall (audio_mismatch language channels) before
    /\ Forall (audio_mismatch language channels) after.

(** [t] is the first track of [tracks] with this language and label. *)
Definition first_audio_match (language channels : string) (t : audio_track)
    (tracks : list audio_track) : Prop :=
  exists before after,
    tracks = before ++ t :: after
    /\ audio_track_matches language channels t = true
    /\ Forall (audio_mismatch language channels) before.

(** [s], in track [t], is the first matching stream met when the tracks
    are walked in order and the streams of each track in order. *)
Definition first_video_match (codec : string) (width height : Z)
    (t : video_track) (s : video_stream) (tracks : list video_track)
    : Prop :=
  exists tbefore tafter sbefore safter,
    tracks = tbefore ++ t :: tafter
    /\ vt_streams t = sbefore ++ s :: safter
    /\ video_stream_matches codec width height s = true
    /\ Forall (fun t' => Forall (video_mismatch codec width height)
                                (vt_streams t')) tbefore
    /\ Forall (video_mismatch codec width height) sbefore.

(** *** Lower case *)

(** Every character of [s] passes [p]. *)
Fixpoint str_forall (p : ascii -> bool) (s : string) : bool :=
  match s with
  | EmptyString => true
  | String c rest => p c && str_forall p rest
  end.

(** The capital letters among the code points below 256: the 26 of ASCII
    (65 to 90) and those of the Latin-1 block (192 to 222, the
    multiplication sign 215 apart). *)
Definition capital_letter (c : ascii) : bool :=
  let n := N_of_ascii c in
  ((65 <=? n) && (n <=? 90)
   || (192 <=? n) && (n <=? 222) && negb (n =? 215))%N.

(** [value] is [raw] in lower case: as long as [raw], with the small
    letter, 32 code points further, where [raw] has a capital letter, the
    character of [raw] elsewhere, and no capital letter left. *)
Definition lower_cased_of (raw value : string) : Prop :=
  String.length value = String.length raw
  /\ (forall i c,
        String.get i raw = Some c ->
        String.get i value
        = Some (if capital_letter c then ascii_of_N (N_of_ascii c + 32)
                else c))
  /\ str_forall (fun c => negb (capital_letter c)) value = true.

(** *** Reading a query string back *)

(** The decoder below undoes [urlencode] the way
    [urllib.parse.parse_qsl] reads a well-formed query string: fields
    are separated by [&], name and value by the first [=], a [+] stands
    for a space and [%XY] for the byte with hexadecimal digits [XY];
    the bytes are the UTF-8 encoding of code points below 256. *)

Fixpoint str_flat_map (f : ascii -> string) (s : string) : string :=
  match s with
  | EmptyString => EmptyString
  | String c rest => f c +:+ str_flat_map f rest
  end.

(** What [quote_plus] makes of one character. *)
Definition quote_plus_char (c : ascii) : string :=
  str_replace " " "+" (quote true (String c EmptyString)).

Definition hex_value (c : ascii) : option N :=
  let n := N_of_ascii c in
  if ((48 <=? n) && (n <=? 57))%N then Some (n - 48)%N
  else if ((65 <=? n) && (n <=? 70))%N then Some (n - 55)%N
  else if ((97 <=? n) && (n <=? 102))%N then Some (n - 87)%N
  else None.

Fixpoint unquote_bytes (s : string) : list N :=
  match s with
  | EmptyString => []
  | String c rest =>
      if Ascii.eqb c "+" then 32%N :: unquote_bytes rest
      else if Ascii.eqb c "%" then
        match rest with
        | String a (String b rest') =>
            match hex_value a, hex_value b with
            | Some x, Some y => (16 * x + y)%N :: unquote_bytes rest'
            | _, _ => N_of_ascii c :: unquote_bytes rest
            end
        | _ => N_of_ascii c :: unquote_bytes rest
        end
      else N_of_ascii c :: unquote_bytes rest
  end.

Fixpoint utf8_decode (bytes : list N) : string :=
  match bytes with
  | [] => EmptyString
  | b :: rest =>
      if (b <? 128)%N then String (ascii_of_N b) (utf8_decode rest)
      else
        match rest with
        | b' :: rest' =>
            String (ascii_of_N ((b - 192) * 64 + (b' - 128)))
                   (utf8_decode rest')
        | [] => EmptyString
        end
  end.

Definition unquote_plus (s : string) : string :=
  utf8_decode (unquote_bytes s).

(** [s.split(sep)] for a one-character separator. *)
Fixpoint str_split (sep : ascii) (s : string) : list string :=
  match s with
  | EmptyString => [EmptyString]
  | String c rest =>
      if Ascii.eqb c sep then EmptyString :: str_split sep rest
      else
        match str_split sep rest with
        | field :: fields => String c field :: fields
        | [] => [String c EmptyString]
        end
  end.

(** What stands before and after the first [sep] of [s]. *)
Fixpoint str_partition (sep : ascii) (s : string) : string * string :=
  match s with
  | EmptyString => (EmptyString, EmptyString)
  | String c rest =>
      if Ascii.eqb c sep then (EmptyString, rest)
      else
        let (name, value) := str_partition sep rest in
        (String c name, value)
  end.

Definition parse_field (field : string) : string * string :=
  let (name, value) := str_partition "=" field in
  (unquote_plus name, unquote_plus value).

Definition parse_fields (query : string) : list (string * string) :=
  map parse_field (str_split "&" query).

(** The fields of a query string that starts with its question mark. *)
Definition parse_query (query : string) : list (string * string) :=
  match query with
  | String c rest => if Ascii.eqb c "?" then parse_fields rest else []
  | EmptyString => []
  end.

(** *** What the log blob transform sends *)

(** What the second and third [replace] make of a text: spaces go, then
    each [#] becomes a space. *)
Definition sent_text (s : string) : string :=
  str_replace "#" " " (str_replace " " "" s).

(** [f] applied to every string of a JSON value, keys included. *)
Fixpoint json_map_str (f : string -> string) (j : json) : json :=
  match j with
  | JStr s => JStr (f s)
  | JInt n => JInt n
  | JList items => JList (map (json_map_str f) items)
  | JDict items =>
      JDict (map (fun '(k, v) => (f k, json_map_str f v)) items)
  end.

(** [json.dumps(j, separators=(',', ':'))]: no space after a comma or a
    colon. *)
Fixpoint json_dumps_compact (j : json) : string :=
  match j with
  | JStr s => json_str s
  | JInt n => str_of_int n
  | JList items =>
      "[" +:+ String.concat "," (map json_dumps_compact items) +:+ "]"
  | JDict items =>
      "{" +:+ String.concat ","
                (map (fun '(k, v) =>
                        json_str k +:+ ":" +:+ json_dumps_compact v)
                     items)
          +:+ "}"
  end.

(** The characters of a query string: the unreserved ones, the three
    separators, the plus sign and the percent sign. *)
Definition query_char (c : ascii) : bool :=
  always_safe (N_of_ascii c)
  || Ascii.eqb c "?" || Ascii.eqb c "&" || Ascii.eqb c "="
  || Ascii.eqb c "+" || Ascii.eqb c "%".

(** [j[key]] for a JSON object: the value of the first item with this
    key. *)
Definition json_get (key : string) (j : json) : option json :=
  match j with
  | JDict items =>
      snd <$> List.find (fun kv => String.eqb (fst kv) key) items
  | _ => None
  end.

(** *** Manifests with fewer or more tracks *)

(** The track with the streams that match, the others dropped. *)
Definition matching_streams_only (codec : string) (width height : Z)
    (t : video_track) : video_track :=
  {| vt_new_track_id := vt_new_track_id t;
     vt_streams :=
       List.filter (video_stream_matches codec width height) (vt_streams t) |}.

(** [m'] has the tracks of [m], in the same order, and then some more. *)
Definition manifest_extends (m m' : manifest) : Prop :=
  (exists more, audio_tracks m' = audio_tracks m ++ more)
  /\ (exists more, video_tracks m' = video_tracks m ++ more)
  /\ (exists more, timedtexttracks m' = timedtexttracks m ++ more).

(** ** Sample data *)

(** A language converter in the manner of Kodi's: names and
    three-letter codes of English and French, nothing else. *)
Definition sample_convert_language_iso (s : string) : string :=
  if String.eqb s "en" || String.eqb s "eng" || String.eqb s "English"
  then "en"
  else if String.eqb s "fr" || String.eqb s "fra" || String.eqb s "French"
  then "fr"
  else "".

Definition sample_apply_lang_code_changes (tracks : list audio_track)
    : list audio_track := tracks.

Definition sample_local_string (id : Z) : result raised string :=
  Return (if id =? 30028 then "Netflix error" else "").

(** The dialogs shown so far, oldest first. *)
Definition sample_show_error_info (title message : string)
    (unknown_error netflix_error : bool) (shown : list error_dialog)
    : result raised unit * list error_dialog :=
  (Return tt,
   shown ++ [ {| dlg_title := title; dlg_message := message;
                 dlg_unknown_error := unknown_error;
                 dlg_netflix_error := netflix_error |} ]).

(** A presentation layer that has no window to show a dialog in. *)
Definition no_window : raised :=
  {| raised_class := "RuntimeError"; raised_str := "no window";
     raised_is_exception := true; raised_msl := false |}.

Definition broken_show_error_info (title message : string)
    (unknown_error netflix_error : bool) (shown : list error_dialog)
    : result raised unit * list error_dialog :=
  (Raise no_window, shown).

Definition negative_argument : raised :=
  {| raised_class := "MSLError"; raised_str := "negative argument";
     raised_is_exception := true; raised_msl := true |}.

(** A wrapped operation: raises an [MSLError] on a negative argument. *)
Definition sample_operation (n : Z) (shown : list error_dialog)
    : result raised Z * list error_dialog :=
  if n <? 0 then (Raise negative_argument, shown)
  else (Return (n + 1), shown).

(** [KeyboardInterrupt] derives from [BaseException], not from
    [Exception]. *)
Definition keyboard_interrupt : raised :=
  {| raised_class := "KeyboardInterrupt"; raised_str := "";
     raised_is_exception := false; raised_msl := false |}.

(** A wrapped operation interrupted from the keyboard. *)
Definition interrupted_operation (n : Z) (shown : list error_dialog)
    : result raised Z * list error_dialog :=
  (Raise keyboard_interrupt, shown).

Definition stream_A : audio_stream :=
  {| a_downloadable_id := "A"; a_bitrate := 100 |}.
Definition stream_B : audio_stream :=
  {| a_downloadable_id := "B"; a_bitrate := 300 |}.
Definition stream_C : audio_stream :=
  {| a_downloadable_id := "C"; a_bitrate := 300 |}.

Definition track_en_stereo : audio_track :=
  {| at_language := "en"; at_channels := "2.0";
     at_new_track_id := "A:2:1;2;en;0"; at_streams := [stream_A] |}.
Definition track_en_51 : audio_track :=
  {| at_language := "en"; at_channels := "5.1";
     at_new_track_id := "A:2:1;6;en;0";
     at_streams := [stream_A; stream_B; stream_C] |}.
Definition track_en_51_no_stream : audio_track :=
  {| at_language := "en"; at_channels := "5.1";
     at_new_track_id := "A:2:1;6;en;1"; at_streams := [] |}.

Definition video_720 : video_stream :=
  {| v_downloadable_id := "V720";
     v_content_profile := "playready-h264mpl31-dash";
     v_res_w := 1280; v_res_h := 720 |}.
Definition video_1080 : video_stream :=
  {| v_downloadable_id := "V1080";
     v_content_profile := "playready-h264hpl40-dash";
     v_res_w := 1920; v_res_h := 1080 |}.
Definition video_track_0 : video_track :=
  {| vt_new_track_id := "V:2:1;2;;default;-1;none;-1;";
     vt_streams := [video_720; video_1080] |}.

Definition sub_track_en : sub_track :=
  {| st_new_track_id := "T:2:0;1;en;0;0;"; st_isNoneTrack := false;
     st_language := "en" |}.
Definition sub_track_none : sub_track :=
  {| st_new_track_id := "T:2:0;1;NONE;0;0;"; st_isNoneTrack := true;
     st_language := "" |}.

Definition sample_manifest : manifest :=
  {| audio_tracks := [track_en_stereo; track_en_51];
     video_tracks := [video_track_0];
     timedtexttracks := [sub_track_en; sub_track_none] |}.

(** The only track with English 5.1 sound has no stream. *)
Definition manifest_no_stream : manifest :=
  {| audio_tracks := [track_en_stereo; track_en_51_no_stream];
     video_tracks := [video_track_0];
     timedtexttracks := [sub_track_en; sub_track_none] |}.

(** The first track with English 5.1 sound has no stream, a later one
    has three. *)
Definition manifest_no_stream_first : manifest :=
  {| audio_tracks := [track_en_stereo; track_en_51_no_stream; track_en_51];
     video_tracks := [video_track_0];
     timedtexttracks := [sub_track_en; sub_track_none] |}.

Definition sample_player : player_state :=
  {| currentvideostream :=
       {| vs_codec := "h264"; vs_width := 1920; vs_height := 1080 |};
     currentaudiostream := {| as_language := "eng"; as_channels := 6 |};
     currentsubtitle := {| ss_language := "en"; ss_isforced := false |};
     elapsed_seconds := 5 |}.

(** The same streams a little later, subtitles switched to French. *)
Definition sample_player_later : player_state :=
  {| currentvideostream := currentvideostream sample_player;
     currentaudiostream := currentaudiostream sample_player;
     currentsubtitle := {| ss_language := "fr"; ss_isforced := true |};
     elapsed_seconds := 9 |}.

(** A player decoding quadraphonic sound. *)
Definition player_4_channels : player_state :=
  {| currentvideostream := currentvideostream sample_player;
     currentaudiostream := {| as_language := "eng"; as_channels := 4 |};
     currentsubtitle := currentsubtitle sample_player;
     elapsed_seconds := 5 |}.

Definition sample_host : host :=
  {| screen_width := 1920; screen_height := 1080;
     user_agent := "Mozilla/5.0 (X11; Linux x86_64) Chrome/84.0.4147.136";
     session_table :=
       {[ "client_version"%string := "6.0021.220.051"%string;
          "build_identifier"%string := "vdeb953cf"%string;
          "browser_info_version"%string := "84.0.4147.136"%string;
          "browser_info_os_name"%string := "Mac OS X"%string;
          "browser_info_os_version"%string := "10.15"%string ]};
     random_uuid := "6f2c1e0a-0d6b-4a58-9a52-3f2b7c1d9e10";
     esn := "NFCDCH-02-SAMPLE";
     clock_ms := 1600000000123; clock_s := 1600000000;
     clock_s' := 1600000000; randint_1_10001 := 4242 |}.

(** The same host, its OS name stored without spaces. *)
Definition sample_host_packed : host :=
  {| screen_width := screen_width sample_host;
     screen_height := screen_height sample_host;
     user_agent := user_agent sample_host;
     session_table :=
       <[ "browser_info_os_name"%string := "MacOSX"%string ]>
         (session_table sample_host);
     random_uuid := random_uuid sample_host;
     esn := esn sample_host;
     clock_ms := clock_ms sample_host; clock_s := clock_s sample_host;
     clock_s' := clock_s' sample_host;
     randint_1_10001 := randint_1_10001 sample_host |}.

(** *** More sample data *)

Definition track_en_51_low : audio_track :=
  {| at_language := "en"; at_channels := "5.1";
     at_new_track_id := "A:2:1;6;en;2"; at_streams := [stream_A] |}.

(** Two tracks with English 5.1 sound. *)
Definition manifest_two_matches : manifest :=
  {| audio_tracks := [track_en_stereo; track_en_51; track_en_51_low];
     video_tracks := [video_track_0];
     timedtexttracks := [sub_track_en; sub_track_none] |}.

(** The sample manifest, its audio tracks the other way round. *)
Definition manifest_reordered : manifest :=
  {| audio_tracks := [track_en_51; track_en_stereo];
     video_tracks := [video_track_0];
     timedtexttracks := [sub_track_en; sub_track_none] |}.

(** A player decoding French 5.1 sound. *)
Definition player_french : player_state :=
  {| currentvideostream := currentvideostream sample_player;
     currentaudiostream := {| as_language := "fra"; as_channels := 6 |};
     currentsubtitle := currentsubtitle sample_player;
     elapsed_seconds := 5 |}.

(** A player that reports no codec. *)
Definition player_no_codec : player_state :=
  {| currentvideostream :=
       {| vs_codec := ""; vs_width := 1920; vs_height := 1080 |};
     currentaudiostream := currentaudiostream sample_player;
     currentsubtitle := currentsubtitle sample_player;
     elapsed_seconds := 5 |}.

(** Play times with an audio entry and no video entry. *)
Definition play_times_one_audio : play_times :=
  {| total := 4999;
     audio := [ {| downloadableId := "B"; duration := 4999 |} ];
     video := [];
     text := [] |}.

(** The same session table on another screen. *)
Definition sample_host_small_screen : host :=
  {| screen_width := 1280; screen_height := 720;
     user_agent := user_agent sample_host;
     session_table := session_table sample_host;
     random_uuid := random_uuid sample_host;
     esn := esn sample_host;
     clock_ms := clock_ms sample_host; clock_s := clock_s sample_host;
     clock_s' := clock_s' sample_host;
     randint_1_10001 := randint_1_10001 sample_host |}.

(** A player that reports the codec by a shorter name. *)
Definition player_avc : player_state :=
  {| currentvideostream :=
       {| vs_codec := "264"; vs_width := 1920; vs_height := 1080 |};
     currentaudiostream := currentaudiostream sample_player;
     currentsubtitle := currentsubtitle sample_player;
     elapsed_seconds := 5 |}.

(** ** Properties *)

(** *** Change-detection gate *)

Lemma audio_info_eqb_eq a b : audio_info_eqb a b = true <-> a = b.
Proof.
  unfold audio_info_eqb. rewrite andb_true_iff, String.eqb_eq, Z.eqb_eq.
  destruct a, b; simpl. split.
  - intros [-> ->]. reflexivity.
  - intros [= -> ->]. auto.
Qed.

Lemma video_info_eqb_eq a b : video_info_eqb a b = true <-> a = b.
Proof.
  unfold video_info_eqb.
  rewrite !andb_true_iff, String.eqb_eq, !Z.eqb_eq.
  destruct a, b; simpl. split.
  - intros [[-> ->] ->]. reflexivity.
  - intros [= -> -> ->]. auto.
Qed.

(** C7. [is_media_changed] is true when there is no previous state; with
    a previous state it is true exactly when the audio or the video
    stream descriptor differs from the previous one, hence false when
    both are identical, whatever the subtitle descriptor and the elapsed
    time are. *)
Theorem is_media_changed_spec :
  (forall s, is_media_changed None s = true)
  /\ (forall p s,
        currentaudiostream s = currentaudiostream p ->
        currentvideostream s = currentvideostream p ->
        is_media_changed (Some p) s = false)
  /\ (forall v a sub sub' t t',
        is_media_changed
          (Some {| currentvideostream := v; currentaudiostream := a;
                   currentsubtitle := sub; elapsed_seconds := t |})
          {| currentvideostream := v; currentaudiostream := a;
             currentsubtitle := sub'; elapsed_seconds := t' |} = false)
  /\ (forall p s,
        is_media_changed (Some p) s = true <->
        currentaudiostream s <> currentaudiostream p
        \/ currentvideostream s <> currentvideostream p).
Proof.
  assert (Hiff : forall p s,
    is_media_changed (Some p) s = true <->
    currentaudiostream s <> currentaudiostream p
    \/ currentvideostream s <> currentvideostream p).
  { intros p s. unfold is_media_changed.
    destruct (video_info_eqb _ _) eqn:Hv, (audio_info_eqb _ _) eqn:Ha; simpl.
    - apply video_info_eqb_eq in Hv. apply audio_info_eqb_eq in Ha.
      split; [discriminate | intros [H | H]; contradiction].
    - split; [intros _ | reflexivity]. left. intros Heq.
      apply audio_info_eqb_eq in Heq. congruence.
    - split; [intros _ | reflexivity]. right. intros Heq.
      apply video_info_eqb_eq in Heq. congruence.
    - split; [intros _ | reflexivity]. right. intros Heq.
      apply video_info_eqb_eq in Heq. congruence. }
  assert (Hsame : forall p s,
    currentaudiostream s = currentaudiostream p ->
    currentvideostream s = currentvideostream p ->
    is_media_changed (Some p) s = false).
  { intros p s Ha Hv. apply not_true_is_false. rewrite Hiff.
    intros [H | H]; contradiction. }
  repeat split.
  - intros p s Ha Hv. apply Hsame; assumption.
  - intros. apply Hsame; reflexivity.
  - apply Hiff.
  - apply Hiff.
Qed.

(** *** Subtitle matcher *)

Lemma find_none_track_first pre t post :
  Forall not_none_track pre -> st_isNoneTrack t = true ->
  find_none_track (pre ++ t :: post) = Return (st_new_track_id t).
Proof.
  intros Hpre Ht. induction Hpre as [|x pre Hx _ IH]; simpl.
  - rewrite Ht. reflexivity.
  - rewrite Hx. exact IH.
Qed.

Lemma find_none_track_none tracks :
  Forall not_none_track tracks ->
  find_none_track tracks = Raise subtitle_not_found.
Proof.
  induction 1 as [|x l Hx _ IH]; simpl; [reflexivity|].
  rewrite Hx. exact IH.
Qed.

Lemma find_none_track_inv tracks :
  (exists pre t post, tracks = pre ++ t :: post
      /\ Forall not_none_track pre /\ st_isNoneTrack t = true)
  \/ Forall not_none_track tracks.
Proof.
  induction tracks as [|x l IH].
  - right. constructor.
  - destruct (st_isNoneTrack x) eqn:Hx.
    + left. exists [], x, l. auto.
    + destruct IH as [(pre & t & post & -> & Hpre & Ht) | Hall].
      * left. exists (x :: pre), t, post. repeat split; auto.
      * right. constructor; assumption.
Qed.


(** *** Audio matcher *)

(** The invariant of [max]: the running maximum [best] is preceded by
    strictly smaller bitrates and followed by bitrates not greater. *)
Lemma max_bitrate_from_inv rest : forall done best seen,
  Forall (fun x => a_bitrate x < a_bitrate best) done ->
  Forall (fun x => a_bitrate x <= a_bitrate best) seen ->
  exists before after,
    done ++ best :: seen ++ rest
    = before ++ max_bitrate_from best rest :: after
    /\ Forall (fun x => a_bitrate x < a_bitrate (max_bitrate_from best rest))
              before
    /\ Forall (fun x => a_bitrate x <= a_bitrate (max_bitrate_from best rest))
              after.
Proof.
  induction rest as [|s rest IH]; intros done best seen Hdone Hseen; simpl.
  - exists done, seen. rewrite app_nil_r. auto.
  - destruct (Z.ltb_spec (a_bitrate best) (a_bitrate s)) as [Hlt | Hge].
    + destruct (IH (done ++ best :: seen) s [])
        as (before & after & Heq & Hb & Ha).
      * rewrite Forall_app, Forall_cons. repeat split; [| assumption |].
        -- eapply Forall_impl; [exact Hdone|]. simpl. intros; lia.
        -- eapply Forall_impl; [exact Hseen|]. simpl. intros; lia.
      * constructor.
      * exists before, after. split; [|auto].
        rewrite <- Heq. rewrite <- !app_assoc. reflexivity.
    + destruct (IH done best (seen ++ [s]))
        as (before & after & Heq & Hb & Ha).
      * assumption.
      * rewrite Forall_app, Forall_singleton. split; [assumption | lia].
      * exists before, after. split; [|auto].
        rewrite <- Heq. rewrite <- !app_assoc. reflexivity.
Qed.

Lemma max_bitrate_first_max streams :
  streams <> [] ->
  exists s, max_bitrate streams = Return s /\ first_max_bitrate s streams.
Proof.
  destruct streams as [|s0 rest]; [congruence|]. intros _.
  exists (max_bitrate_from s0 rest). split; [reflexivity|].
  destruct (max_bitrate_from_inv rest [] s0 [])
    as (before & after & Heq & Hb & Ha);
    [constructor | constructor |].
  exists before, after. auto.
Qed.

Lemma find_audio_track_first language channels before t after :
  Forall (audio_mismatch language channels) before ->
  audio_track_matches language channels t = true ->
  find_audio_track language channels (before ++ t :: after)
  = (stream ← max_bitrate (at_streams t);
     Return (a_downloadable_id stream, at_new_track_id t)).
Proof.
  intros Hbefore Ht. induction Hbefore as [|x l Hx _ IH]; simpl.
  - rewrite Ht. reflexivity.
  - rewrite Hx. exact IH.
Qed.

Lemma find_audio_track_none language channels tracks :
  Forall (audio_mismatch language channels) tracks ->
  find_audio_track language channels tracks
  = Raise (audio_not_found language channels).
Proof.
  induction 1 as [|x l Hx _ IH]; simpl; [reflexivity|].
  rewrite Hx. exact IH.
Qed.

Lemma only_first_audio_match language channels t tracks :
  only_audio_match language channels t tracks ->
  first_audio_match language channels t tracks.
Proof.
  intros (before & after & Heq & Ht & Hb & _). exists before, after. auto.
Qed.

Lemma find_audio_data_first ps m label t :
  AUDIO_CHANNELS_CONV !! as_channels (currentaudiostream ps) = Some label ->
  first_audio_match (normalized_language ps) label t (audio_tracks m) ->
  _find_audio_data ps m
  = (stream ← max_bitrate (at_streams t);
     Return (a_downloadable_id stream, at_new_track_id t)).
Proof.
  intros Hlabel (before & after & Heq & Ht & Hb).
  unfold _find_audio_data. rewrite Hlabel, Heq.
  apply find_audio_track_first; assumption.
Qed.

(** C1, as amended. When the channel count of the player's audio stream is
    in the table and exactly one audio track of the manifest has the
    normalized language and the channel label, and that track has at
    least one stream, [_find_audio_data] returns the [downloadable_id] of
    the first stream of greatest bitrate of that track, with the
    [new_track_id] of the track. *)
Theorem find_audio_max_bitrate ps m label t :
  AUDIO_CHANNELS_CONV !! as_channels (currentaudiostream ps) = Some label ->
  only_audio_match (normalized_language ps) label t (audio_tracks m) ->
  at_streams t <> [] ->
  exists s,
    first_max_bitrate s (at_streams t)
    /\ _find_audio_data ps m
       = Return (a_downloadable_id s, at_new_track_id t).
Proof.
  intros Hlabel Honly Hstreams.
  destruct (max_bitrate_first_max _ Hstreams) as (s & Hmax & Hfirst).
  exists s. split; [assumption|].
  rewrite (find_audio_data_first ps m label t Hlabel
             (only_first_audio_match _ _ _ _ Honly)).
  rewrite Hmax. reflexivity.
Qed.

(** C10. When the first audio track with the normalized language and the
    channel label has no stream, [_find_audio_data] raises the
    [ValueError] of [max]: it neither raises its own not-found exception
    nor returns anything, whatever tracks follow. *)
Theorem find_audio_empty_streams ps m label t :
  AUDIO_CHANNELS_CONV !! as_channels (currentaudiostream ps) = Some label ->
  first_audio_match (normalized_language ps) label t (audio_tracks m) ->
  at_streams t = [] ->
  _find_audio_data ps m = Raise ValueError
  /\ _find_audio_data ps m
     <> Raise (audio_not_found (normalized_language ps) label)
  /\ forall found, _find_audio_data ps m <> Return found.
Proof.
  intros Hlabel Hfirst Hempty.
  rewrite (find_audio_data_first ps m label t Hlabel Hfirst), Hempty.
  simpl. repeat split; intros; discriminate.
Qed.

(** C5. The table maps 1, 2, 6 and 8 to the labels 1.0, 2.0, 5.1 and 7.1
    and nothing else; for a channel count outside it [_find_audio_data]
    raises the [KeyError] of the lookup, whatever the manifest, and for
    a count inside it the search runs with the label of the table. *)
Theorem channel_table_spec :
  AUDIO_CHANNELS_CONV !! 1 = Some "1.0"%string
  /\ AUDIO_CHANNELS_CONV !! 2 = Some "2.0"%string
  /\ AUDIO_CHANNELS_CONV !! 6 = Some "5.1"%string
  /\ AUDIO_CHANNELS_CONV !! 8 = Some "7.1"%string
  /\ (forall count,
        count <> 1 -> count <> 2 -> count <> 6 -> count <> 8 ->
        AUDIO_CHANNELS_CONV !! count = None
        /\ forall ps m,
             as_channels (currentaudiostream ps) = count ->
             _find_audio_data ps m = Raise (KeyError count))
  /\ (forall ps m label,
        AUDIO_CHANNELS_CONV !! as_channels (currentaudiostream ps)
        = Some label ->
        _find_audio_data ps m
        = find_audio_track (normalized_language ps) label (audio_tracks m)).
Proof.
  split; [reflexivity|]. split; [reflexivity|].
  split; [reflexivity|]. split; [reflexivity|]. split.
  - intros count H1 H2 H6 H8.
    assert (Hnone : AUDIO_CHANNELS_CONV !! count = None).
    { unfold AUDIO_CHANNELS_CONV.
      rewrite !lookup_insert_ne by congruence.
      apply lookup_singleton_ne. congruence. }
    split; [exact Hnone|]. intros ps m Hcount.
    unfold _find_audio_data. rewrite Hcount, Hnone. reflexivity.
  - intros ps m label Hlabel. unfold _find_audio_data.
    rewrite Hlabel. reflexivity.
Qed.

(** *** Video matcher *)

Lemma str_prefix_iff a b :
  String.prefix a b = true <-> exists rest, b = a +:+ rest.
Proof.
  revert b. induction a as [|c a IH]; intros b; simpl.
  - destruct b; split; eauto.
  - destruct b as [|c' b]; simpl.
    + split; [discriminate | intros [rest Hrest]; discriminate].
    + destruct (ascii_dec c c') as [-> | Hne].
      * rewrite IH. split; intros [rest Hrest]; exists rest.
        -- rewrite Hrest. reflexivity.
        -- injection Hrest as Hrest. exact Hrest.
      * split; [discriminate|]. intros [rest Hrest].
        injection Hrest as Hc _. congruence.
Qed.

Lemma str_contains_iff sub s :
  str_contains sub s = true <-> exists pre post, s = pre +:+ sub +:+ post.
Proof.
  induction s as [|c s IH].
  - change (str_contains sub EmptyString)
      with (String.prefix sub EmptyString || false).
    rewrite orb_false_r, str_prefix_iff. split.
    + intros [rest Hrest]. exists EmptyString, rest. exact Hrest.
    + intros (pre & post & Heq). exists post.
      destruct pre; [exact Heq | discriminate].
  - change (str_contains sub (String c s))
      with (String.prefix sub (String c s) || str_contains sub s).
    rewrite orb_true_iff, str_prefix_iff, IH. split.
    + intros [[rest Hrest] | (pre & post & Heq)].
      * exists EmptyString, rest. exact Hrest.
      * exists (String c pre), post. rewrite Heq. reflexivity.
    + intros (pre & post & Heq). destruct pre as [|c' pre].
      * left. exists post. exact Heq.
      * right. exists pre, post. injection Heq as _ Heq. exact Heq.
Qed.

Lemma video_stream_matches_iff codec width height s :
  video_stream_matches codec width height s = true <->
  (exists pre post, v_content_profile s = pre +:+ codec +:+ post)
  /\ v_res_w s = width /\ v_res_h s = height.
Proof.
  unfold video_stream_matches.
  rewrite !andb_true_iff, str_contains_iff, !Z.eqb_eq.
  split.
  - intros [[Hcodec ->] ->]. auto.
  - intros (Hcodec & -> & ->). auto.
Qed.

Lemma find_video_stream_first codec width height sbefore s safter :
  Forall (video_mismatch codec width height) sbefore ->
  video_stream_matches codec width height s = true ->
  find_video_stream codec width height (sbefore ++ s :: safter) = Some s.
Proof.
  intros Hbefore Hs. induction Hbefore as [|x l Hx _ IH]; simpl.
  - rewrite Hs. reflexivity.
  - rewrite Hx. exact IH.
Qed.

Lemma find_video_stream_none codec width height streams :
  find_video_stream codec width height streams = None <->
  Forall (video_mismatch codec width height) streams.
Proof.
  induction streams as [|x l IH]; simpl.
  - split; [constructor | reflexivity].
  - rewrite Forall_cons. unfold video_mismatch at 1.
    destruct (video_stream_matches codec width height x).
    + split; [discriminate | intros [Hx _]; discriminate].
    + rewrite IH. split; [intros Hl; split; [reflexivity | exact Hl]|].
      intros [_ Hl]. exact Hl.
Qed.

Lemma find_video_stream_some codec width height streams s :
  find_video_stream codec width height streams = Some s ->
  exists sbefore safter,
    streams = sbefore ++ s :: safter
    /\ video_stream_matches codec width height s = true
    /\ Forall (video_mismatch codec width height) sbefore.
Proof.
  induction streams as [|x l IH]; simpl; [discriminate|].
  destruct (video_stream_matches codec width height x) eqn:Hx.
  - intros [= ->]. exists [], l. auto.
  - intros Hfind. destruct (IH Hfind) as (sb & sa & -> & Hs & Hsb).
    exists (x :: sb), sa. repeat split; auto.
Qed.

Lemma find_video_track_first codec width height t s tracks :
  first_video_match codec width height t s tracks ->
  find_video_track codec width height tracks
  = Return (v_downloadable_id s, vt_new_track_id t).
Proof.
  intros (tb & ta & sb & sa & -> & Hstreams & Hs & Htb & Hsb).
  induction Htb as [|x l Hx _ IH]; simpl.
  - rewrite Hstreams, (find_video_stream_first _ _ _ _ _ _ Hsb Hs).
    reflexivity.
  - apply find_video_stream_none in Hx. rewrite Hx. exact IH.
Qed.

Lemma find_video_track_return codec width height tracks found :
  find_video_track codec width height tracks = Return found ->
  exists t s,
    first_video_match codec width height t s tracks
    /\ found = (v_downloadable_id s, vt_new_track_id t).
Proof.
  induction tracks as [|x l IH]; simpl; [discriminate|].
  destruct (find_video_stream codec width height (vt_streams x)) as [s|] eqn:Hx.
  - intros [= <-]. exists x, s. split; [|reflexivity].
    destruct (find_video_stream_some _ _ _ _ _ Hx)
      as (sb & sa & Heq & Hs & Hsb).
    exists [], l, sb, sa. repeat split; auto.
  - intros Hfind. destruct (IH Hfind) as (t & s & Hfirst & ->).
    exists t, s. split; [|reflexivity].
    destruct Hfirst as (tb & ta & sb & sa & -> & Heq & Hs & Htb & Hsb).
    exists (x :: tb), ta, sb, sa. repeat split; auto.
    constructor; [|assumption]. apply find_video_stream_none. exact Hx.
Qed.

Lemma find_video_track_none codec width height tracks :
  Forall (fun t => Forall (video_mismatch codec width height) (vt_streams t))
         tracks ->
  find_video_track codec width height tracks
  = Raise (video_not_found codec width height).
Proof.
  induction 1 as [|x l Hx _ IH]; simpl; [reflexivity|].
  apply find_video_stream_none in Hx. rewrite Hx. exact IH.
Qed.

(** C2. [_find_video_data] returns the first stream, tracks walked in
    order and the streams of each track in order, whose
    [content_profile] contains the player's codec and whose [res_w] and
    [res_h] equal the player's width and height, with the id of its
    track, and nothing else; it raises when no stream matches; a stream
    that matches stops matching when its [res_w] or [res_h], or the
    player's width or height, moves by one. *)
Theorem find_video_spec ps m :
  let codec := vs_codec (currentvideostream ps) in
  let width := vs_width (currentvideostream ps) in
  let height := vs_height (currentvideostream ps) in
  (forall t s,
      first_video_match codec width height t s (video_tracks m) ->
      _find_video_data ps m
      = Return (v_downloadable_id s, vt_new_track_id t))
  /\ (forall found,
        _find_video_data ps m = Return found ->
        exists t s,
          first_video_match codec width height t s (video_tracks m)
          /\ found = (v_downloadable_id s, vt_new_track_id t))
  /\ (Forall (fun t => Forall (video_mismatch codec width height)
                              (vt_streams t)) (video_tracks m) ->
      _find_video_data ps m = Raise (video_not_found codec width height))
  /\ (forall s,
        video_stream_matches codec width height s = true <->
        (exists pre post, v_content_profile s = pre +:+ codec +:+ post)
        /\ v_res_w s = width /\ v_res_h s = height)
  /\ (forall id profile res_w res_h delta,
        delta = 1 \/ delta = -1 ->
        video_stream_matches codec width height
          {| v_downloadable_id := id; v_content_profile := profile;
             v_res_w := res_w; v_res_h := res_h |} = true ->
        video_stream_matches codec width height
          {| v_downloadable_id := id; v_content_profile := profile;
             v_res_w := res_w + delta; v_res_h := res_h |} = false
        /\ video_stream_matches codec width height
             {| v_downloadable_id := id; v_content_profile := profile;
                v_res_w := res_w; v_res_h := res_h + delta |} = false
        /\ video_stream_matches codec (width + delta) height
             {| v_downloadable_id := id; v_content_profile := profile;
                v_res_w := res_w; v_res_h := res_h |} = false
        /\ video_stream_matches codec width (height + delta)
             {| v_downloadable_id := id; v_content_profile := profile;
                v_res_w := res_w; v_res_h := res_h |} = false).
Proof.
  intros codec width height. unfold _find_video_data.
  fold codec width height. split; [|split; [|split; [|split]]].
  - intros t s. apply find_video_track_first.
  - intros found. apply find_video_track_return.
  - apply find_video_track_none.
  - intros s. apply video_stream_matches_iff.
  - intros id profile res_w res_h delta Hdelta Hmatch.
    apply video_stream_matches_iff in Hmatch. simpl in Hmatch.
    destruct Hmatch as (_ & Hw & Hh).
    repeat split; apply not_true_is_false; intros Hmatch';
      apply video_stream_matches_iff in Hmatch'; simpl in Hmatch'; lia.
Qed.

(** *** Media-tag builder *)

(** C3. When the three matchers succeed (the audio matcher on the
    manifest with its language codes rewritten, the other two do not read
    the audio tracks), [build_media_tag] returns play times whose [total]
    is [position - 1], whose [audio] and [video] lists hold one entry
    each, with the matched downloadable id and that same duration, and
    whose [text] list is empty, with the three track ids; at position
    5000 the total is 4999. When a matcher raises, [build_media_tag]
    raises the same exception, and it returns nothing but the full tag. *)
Theorem build_media_tag_spec ps m position :
  (forall a_id a_track v_id v_track t_track,
      _find_audio_data ps (with_lang_code_changes m) = Return (a_id, a_track) ->
      _find_video_data ps m = Return (v_id, v_track) ->
      _find_subtitle_data m = Return t_track ->
      build_media_tag ps m position
      = Return ({| total := position - 1;
                   audio := [ {| downloadableId := a_id;
                                 duration := position - 1 |} ];
                   video := [ {| downloadableId := v_id;
                                 duration := position - 1 |} ];
                   text := [] |},
                v_track, a_track, t_track)
      /\ (position = 5000 ->
          build_media_tag ps m position
          = Return ({| total := 4999;
                       audio := [ {| downloadableId := a_id;
                                     duration := 4999 |} ];
                       video := [ {| downloadableId := v_id;
                                     duration := 4999 |} ];
                       text := [] |},
                    v_track, a_track, t_track)))
  /\ (forall e,
        _find_audio_data ps (with_lang_code_changes m) = Raise e ->
        build_media_tag ps m position = Raise e)
  /\ (forall found e,
        _find_audio_data ps (with_lang_code_changes m) = Return found ->
        _find_video_data ps m = Raise e ->
        build_media_tag ps m position = Raise e)
  /\ (forall found found' e,
        _find_audio_data ps (with_lang_code_changes m) = Return found ->
        _find_video_data ps m = Return found' ->
        _find_subtitle_data m = Raise e ->
        build_media_tag ps m position = Raise e)
  /\ (forall tag v_track a_track t_track,
        build_media_tag ps m position
        = Return (tag, v_track, a_track, t_track) ->
        exists a_id v_id,
          _find_audio_data ps (with_lang_code_changes m)
          = Return (a_id, a_track)
          /\ _find_video_data ps m = Return (v_id, v_track)
          /\ _find_subtitle_data m = Return t_track
          /\ tag = {| total := position - 1;
                      audio := [ {| downloadableId := a_id;
                                    duration := position - 1 |} ];
                      video := [ {| downloadableId := v_id;
                                    duration := position - 1 |} ];
                      text := [] |}).
Proof.
  unfold build_media_tag.
  change (_find_video_data ps (with_lang_code_changes m))
    with (_find_video_data ps m).
  change (_find_subtitle_data (with_lang_code_changes m))
    with (_find_subtitle_data m).
  split; [|split; [|split; [|split]]].
  - intros a_id a_track v_id v_track t_track Ha Hv Ht.
    rewrite Ha, Hv, Ht. simpl. split; [reflexivity|].
    intros ->. reflexivity.
  - intros e Ha. rewrite Ha. reflexivity.
  - intros [a_id a_track] e Ha Hv. rewrite Ha, Hv. reflexivity.
  - intros [a_id a_track] [v_id v_track] e Ha Hv Ht.
    rewrite Ha, Hv, Ht. reflexivity.
  - intros tag v_track a_track t_track.
    destruct (_find_audio_data ps (with_lang_code_changes m))
      as [[a_id a_track']|e]; simpl; [|discriminate].
    destruct (_find_video_data ps m) as [[v_id v_track']|e];
      simpl; [|discriminate].
    destruct (_find_subtitle_data m) as [t_track'|e]; simpl; [|discriminate].
    intros [= <- <- <- <-]. exists a_id, v_id. repeat split.
Qed.

(** *** Failure reporter *)

(** C9, as amended. The decorated function returns what the wrapped
    function returns and leaves the world as the wrapped function left it.
    When the wrapped function raises an instance of [Exception] and the
    notification completes (the text of the exception and the title are
    obtained and [show_error_info] returns), the decorated function
    raises the same exception, after that one call of [show_error_info]
    with the class name and the text of the exception, the unknown-error
    flag off, and the Netflix flag telling whether it is an [MSLError].
    What is raised outside [Exception] is raised again as it is, without
    a dialog. A raise of the wrapped function always ends in a raise. *)
Theorem display_error_info_spec {Args A : Type}
    (func : Args -> world -> result E A * world) (args : Args) (w : world) :
  (forall v w',
      func args w = (Return v, w') ->
      display_error_info func args w = (Return v, w'))
  /\ (forall exc w' text title shown w'',
        func args w = (Raise exc, w') ->
        is_Exception exc = true ->
        exc_str exc = Return text ->
        get_local_string 30028 = Return title ->
        show_error_info title (class_name exc +:+ ": " +:+ text)
          false (is_MSLError exc) w' = (Return shown, w'') ->
        display_error_info func args w = (Raise exc, w''))
  /\ (forall exc w',
        func args w = (Raise exc, w') ->
        is_Exception exc = false ->
        display_error_info func args w = (Raise exc, w'))
  /\ (forall exc w',
        func args w = (Raise exc, w') ->
        exists e w'', display_error_info func args w = (Raise e, w''))
  /\ (forall v w',
        display_error_info func args w = (Return v, w') ->
        func args w = (Return v, w')).
Proof.
  assert (Hflag : forall exc text,
    String.eqb (class_name exc +:+ ": " +:+ text) "" = false).
  { intros exc text. destruct (class_name exc); reflexivity. }
  unfold display_error_info. repeat split.
  - intros v w' ->. reflexivity.
  - intros exc w' text title shown w'' -> -> -> -> . rewrite Hflag.
    intros ->. reflexivity.
  - intros exc w' -> ->. reflexivity.
  - intros exc w' ->. destruct (is_Exception exc); [|eauto].
    destruct (exc_str exc) as [text|e]; [|eauto].
    destruct (get_local_string 30028) as [title|e]; [|eauto].
    destruct (show_error_info _ _ _ _ w') as [[shown|e] w'']; eauto.
  - intros v w'. destruct (func args w) as [[v0|exc] w0]; [trivial|].
    destruct (is_Exception exc); [|discriminate].
    destruct (exc_str exc) as [text|e]; [|discriminate].
    destruct (get_local_string 30028) as [title|e]; [|discriminate].
    destruct (show_error_info _ _ _ _ w0) as [[shown|e] w'']; discriminate.
Qed.

(** *** Replacing one character *)

Lemma str_prefix_empty s : String.prefix EmptyString s = true.
Proof. destruct s; reflexivity. Qed.

Lemma str_replace_char_cons c new c' s :
  str_replace (String c EmptyString) new (String c' s)
  = if ascii_dec c c'
    then new +:+ str_replace (String c EmptyString) new s
    else String c' (str_replace (String c EmptyString) new s).
Proof.
  unfold str_replace. simpl. destruct (ascii_dec c c'); [|reflexivity].
  rewrite str_prefix_empty. reflexivity.
Qed.

Lemma str_contains_char_cons c c' s :
  str_contains (String c EmptyString) (String c' s)
  = if ascii_dec c c' then true
    else str_contains (String c EmptyString) s.
Proof.
  simpl. destruct (ascii_dec c c'); [|reflexivity].
  rewrite str_prefix_empty. reflexivity.
Qed.

Lemma str_app_assoc a b c : (a +:+ b) +:+ c = a +:+ b +:+ c.
Proof.
  induction a as [|x a IH]; [reflexivity|].
  change (String x ((a +:+ b) +:+ c) = String x (a +:+ b +:+ c)).
  rewrite IH. reflexivity.
Qed.

Lemma str_replace_char_app c new a b :
  str_replace (String c EmptyString) new (a +:+ b)
  = str_replace (String c EmptyString) new a
    +:+ str_replace (String c EmptyString) new b.
Proof.
  induction a as [|c' a IH]; [reflexivity|].
  change (String c' a +:+ b) with (String c' (a +:+ b)).
  rewrite !str_replace_char_cons, IH. destruct (ascii_dec c c').
  - rewrite str_app_assoc. reflexivity.
  - reflexivity.
Qed.

Lemma str_replace_char_self c s :
  str_replace (String c EmptyString) (String c EmptyString) s = s.
Proof.
  induction s as [|c' s IH]; [reflexivity|].
  rewrite str_replace_char_cons, IH.
  destruct (ascii_dec c c') as [-> | _]; reflexivity.
Qed.

Lemma str_replace_char_absent c new s :
  str_contains (String c EmptyString) s = false ->
  str_replace (String c EmptyString) new s = s.
Proof.
  induction s as [|c' s IH]; [reflexivity|].
  rewrite str_contains_char_cons, str_replace_char_cons.
  destruct (ascii_dec c c'); [discriminate|].
  intros Habsent. rewrite (IH Habsent). reflexivity.
Qed.

Lemma str_delete_char_absent c s :
  str_contains (String c EmptyString)
    (str_replace (String c EmptyString) EmptyString s) = false.
Proof.
  induction s as [|c' s IH]; [reflexivity|].
  rewrite str_replace_char_cons. destruct (ascii_dec c c') as [-> | Hne].
  - exact IH.
  - rewrite str_contains_char_cons.
    destruct (ascii_dec c c'); [contradiction | exact IH].
Qed.

(** On a string without [a], turning each [b] into [a] and then each [a]
    into [b] gives the string back. *)
Lemma str_replace_char_back a b s :
  str_contains (String a EmptyString) s = false ->
  str_replace (String a EmptyString) (String b EmptyString)
    (str_replace (String b EmptyString) (String a EmptyString) s) = s.
Proof.
  induction s as [|c s IH]; [reflexivity|].
  rewrite str_contains_char_cons.
  destruct (ascii_dec a c) as [-> | Hac]; [discriminate|]. intros Habsent.
  rewrite str_replace_char_cons. destruct (ascii_dec b c) as [-> | Hbc].
  - change (String a EmptyString +:+ ?x) with (String a x).
    rewrite str_replace_char_cons.
    destruct (ascii_dec a a); [|contradiction].
    rewrite (IH Habsent). reflexivity.
  - rewrite str_replace_char_cons.
    destruct (ascii_dec a c); [contradiction|].
    rewrite (IH Habsent). reflexivity.
Qed.

(** *** Log blob escaping *)

Lemma unescape_escape_blobs_dump dump :
  unescape_blobs_dump (escape_blobs_dump dump) = str_replace " " "" dump.
Proof.
  unfold unescape_blobs_dump, escape_blobs_dump.
  rewrite str_replace_char_self.
  apply str_replace_char_back. apply str_delete_char_absent.
Qed.

(** *** Request parameters *)

Ltac each_char c := destruct c as [[] [] [] [] [] [] [] []].

Lemma str_app_nil_r s : s +:+ EmptyString = s.
Proof.
  induction s as [|c s IH]; [reflexivity|].
  change (String c (s +:+ EmptyString) = String c s). rewrite IH. reflexivity.
Qed.

Lemma str_concat_cons sep x l :
  l <> [] -> String.concat sep (x :: l) = x +:+ sep +:+ String.concat sep l.
Proof. destruct l; [congruence | reflexivity]. Qed.

Lemma str_concat_empty_cons x l :
  String.concat EmptyString (x :: l) = x +:+ String.concat EmptyString l.
Proof. destruct l; [symmetry; apply str_app_nil_r | reflexivity]. Qed.

Lemma str_concat_empty_app l l' :
  String.concat EmptyString (l ++ l')
  = String.concat EmptyString l +:+ String.concat EmptyString l'.
Proof.
  induction l as [|x l IH]; [reflexivity|].
  change ((x :: l) ++ l') with (x :: (l ++ l')).
  rewrite !str_concat_empty_cons, IH, str_app_assoc. reflexivity.
Qed.

Lemma quote_cons keep c s :
  quote keep (String c s) = quote keep (String c EmptyString) +:+ quote keep s.
Proof.
  unfold quote, utf8_encode.
  change (list_ascii_of_string (String c s))
    with ([c] ++ list_ascii_of_string s).
  rewrite flat_map_app, map_app, str_concat_empty_app. reflexivity.
Qed.

Lemma quote_true_plus s :
  str_replace " " "+" (quote true s) = str_flat_map quote_plus_char s.
Proof.
  induction s as [|c s IH]; [reflexivity|].
  rewrite quote_cons, str_replace_char_app, IH. reflexivity.
Qed.

Lemma quote_false_char c :
  c <> " "%char -> quote false (String c EmptyString) = quote_plus_char c.
Proof. each_char c; intros Hc; try reflexivity; contradiction. Qed.

Lemma quote_false_plus s :
  str_contains " " s = false ->
  quote false s = str_flat_map quote_plus_char s.
Proof.
  induction s as [|c s IH]; [reflexivity|].
  rewrite str_contains_char_cons.
  destruct (ascii_dec " " c) as [_ | Hc]; [discriminate|]. intros Hs.
  rewrite quote_cons, (IH Hs), quote_false_char by congruence. reflexivity.
Qed.

(** [quote_plus] works character by character. *)
Lemma quote_plus_flat_map s :
  quote_plus s = str_flat_map quote_plus_char s.
Proof.
  unfold quote_plus. destruct (str_contains " " s) eqn:Hs.
  - apply quote_true_plus.
  - apply quote_false_plus. exact Hs.
Qed.

Lemma unquote_bytes_char c rest :
  unquote_bytes (quote_plus_char c +:+ rest)
  = utf8_char c ++ unquote_bytes rest.
Proof. each_char c; reflexivity. Qed.

Lemma utf8_decode_char c bytes :
  utf8_decode (utf8_char c ++ bytes) = String c (utf8_decode bytes).
Proof. each_char c; reflexivity. Qed.

Lemma utf8_decode_encode s : utf8_decode (utf8_encode s) = s.
Proof.
  induction s as [|c s IH]; [reflexivity|].
  change (utf8_encode (String c s)) with (utf8_char c ++ utf8_encode s).
  rewrite utf8_decode_char, IH. reflexivity.
Qed.

Lemma unquote_bytes_quote_plus s :
  unquote_bytes (quote_plus s) = utf8_encode s.
Proof.
  rewrite quote_plus_flat_map. induction s as [|c s IH]; [reflexivity|].
  change (str_flat_map quote_plus_char (String c s))
    with (quote_plus_char c +:+ str_flat_map quote_plus_char s).
  rewrite unquote_bytes_char, IH. reflexivity.
Qed.

Lemma unquote_quote_plus s : unquote_plus (quote_plus s) = s.
Proof.
  unfold unquote_plus. rewrite unquote_bytes_quote_plus.
  apply utf8_decode_encode.
Qed.

Lemma str_contains_char_app c a b :
  str_contains (String c EmptyString) (a +:+ b)
  = str_contains (String c EmptyString) a
    || str_contains (String c EmptyString) b.
Proof.
  induction a as [|c' a IH]; [reflexivity|].
  change (String c' a +:+ b) with (String c' (a +:+ b)).
  rewrite !str_contains_char_cons, IH.
  destruct (ascii_dec c c'); reflexivity.
Qed.

Lemma quote_plus_char_no_sep c :
  str_contains "&" (quote_plus_char c) = false
  /\ str_contains "=" (quote_plus_char c) = false.
Proof. each_char c; split; reflexivity. Qed.

(** No [&] and no [=] comes out of [quote_plus]. *)
Lemma quote_plus_no_sep s :
  str_contains "&" (quote_plus s) = false
  /\ str_contains "=" (quote_plus s) = false.
Proof.
  rewrite quote_plus_flat_map.
  induction s as [|c s [IHamp IHeq]]; [split; reflexivity|].
  change (str_flat_map quote_plus_char (String c s))
    with (quote_plus_char c +:+ str_flat_map quote_plus_char s).
  rewrite !str_contains_char_app, IHamp, IHeq.
  destruct (quote_plus_char_no_sep c) as [-> ->]. split; reflexivity.
Qed.

Lemma str_split_app sep a b :
  str_contains (String sep EmptyString) a = false ->
  str_split sep (a +:+ String sep b) = a :: str_split sep b.
Proof.
  induction a as [|c a IH].
  - intros _. change (EmptyString +:+ String sep b) with (String sep b).
    simpl. rewrite Ascii.eqb_refl. reflexivity.
  - rewrite str_contains_char_cons.
    destruct (ascii_dec sep c) as [_ | Hc]; [discriminate|]. intros Ha.
    change (String c a +:+ String sep b) with (String c (a +:+ String sep b)).
    simpl. destruct (Ascii.eqb_spec c sep) as [-> | _]; [contradiction|].
    rewrite (IH Ha). reflexivity.
Qed.

Lemma str_split_absent sep a :
  str_contains (String sep EmptyString) a = false -> str_split sep a = [a].
Proof.
  induction a as [|c a IH]; [reflexivity|].
  rewrite str_contains_char_cons.
  destruct (ascii_dec sep c) as [_ | Hc]; [discriminate|]. intros Ha.
  simpl. destruct (Ascii.eqb_spec c sep) as [-> | _]; [contradiction|].
  rewrite (IH Ha). reflexivity.
Qed.

Lemma str_partition_app sep name value :
  str_contains (String sep EmptyString) name = false ->
  str_partition sep (name +:+ String sep value) = (name, value).
Proof.
  induction name as [|c name IH].
  - intros _. change (EmptyString +:+ String sep value) with (String sep value).
    simpl. rewrite Ascii.eqb_refl. reflexivity.
  - rewrite str_contains_char_cons.
    destruct (ascii_dec sep c) as [_ | Hc]; [discriminate|]. intros Hname.
    change (String c name +:+ String sep value)
      with (String c (name +:+ String sep value)).
    simpl. destruct (Ascii.eqb_spec c sep) as [-> | _]; [contradiction|].
    rewrite (IH Hname). reflexivity.
Qed.

Lemma parse_field_quote name value :
  parse_field (quote_plus name +:+ "=" +:+ quote_plus value) = (name, value).
Proof.
  unfold parse_field.
  change ("=" +:+ quote_plus value) with (String "=" (quote_plus value)).
  rewrite str_partition_app by apply quote_plus_no_sep.
  rewrite !unquote_quote_plus. reflexivity.
Qed.

Lemma field_no_amp name value :
  str_contains "&" (quote_plus name +:+ "=" +:+ quote_plus value) = false.
Proof.
  rewrite !str_contains_char_app.
  destruct (quote_plus_no_sep name) as [-> _].
  destruct (quote_plus_no_sep value) as [-> _]. reflexivity.
Qed.

(** Reading back what [urlencode] wrote gives the parameters, in order. *)
Lemma parse_fields_urlencode params : forall p,
  parse_fields (urlencode (p :: params)) = p :: params.
Proof.
  unfold parse_fields, urlencode.
  induction params as [|q params IH]; intros [name value].
  - simpl. rewrite str_split_absent by apply field_no_amp.
    simpl. rewrite parse_field_quote. reflexivity.
  - change (map ?f ((name, value) :: q :: params))
      with (f (name, value) :: map f (q :: params)).
    rewrite str_concat_cons by discriminate.
    cbv beta iota.
    change ("&" +:+ ?x) with (String "&" x).
    rewrite <- str_app_assoc.
    rewrite str_split_app by (rewrite str_app_assoc; apply field_no_amp).
    rewrite str_app_assoc.
    change (map parse_field (?x :: ?l))
      with (parse_field x :: map parse_field l).
    rewrite parse_field_quote, IH. reflexivity.
Qed.

Lemma lower_char_twice c : lower_char (lower_char c) = lower_char c.
Proof. each_char c; reflexivity. Qed.

Lemma str_lower_twice s : str_lower (str_lower s) = str_lower s.
Proof.
  induction s as [|c s IH]; [reflexivity|].
  simpl. rewrite lower_char_twice, IH. reflexivity.
Qed.

Lemma str_lower_length s : String.length (str_lower s) = String.length s.
Proof.
  induction s as [|c s IH]; [reflexivity|]. simpl. rewrite IH. reflexivity.
Qed.

Lemma str_lower_get s : forall i c,
  String.get i s = Some c -> String.get i (str_lower s) = Some (lower_char c).
Proof.
  induction s as [|c' s IH]; intros i c; [discriminate|].
  destruct i as [|i]; simpl.
  - intros [= ->]. reflexivity.
  - apply IH.
Qed.

Lemma lower_char_not_capital c : negb (capital_letter (lower_char c)) = true.
Proof. each_char c; reflexivity. Qed.

Lemma str_lower_lower_cased s : lower_cased_of s (str_lower s).
Proof.
  split; [apply str_lower_length|]. split.
  - intros i c Hget. rewrite (str_lower_get s i c Hget). reflexivity.
  - induction s as [|c s IH]; [reflexivity|]. simpl.
    rewrite lower_char_not_capital, IH. reflexivity.
Qed.

(** C6. For every request name, the parameters of [create_req_params]
    are, in this order, [reqAttempt] (empty), [reqName] (the name given),
    [clienttype], [uiversion], [browsername], [browserversion], [osname]
    and [osversion]; the browser version and the OS name are the values
    of the session table in lower case: every capital letter replaced by
    its small letter, every other character kept, no capital letter
    left; the string returned is the question mark followed by their
    encoding, and reading it back gives these parameters in this order;
    for the name [events/engage] the second one is [reqName] with the
    value [events/engage]. *)
Theorem create_req_params_spec (h : host) (req_name : string) :
  req_params h req_name
  = [ ("reqAttempt", "");
      ("reqName", req_name);
      ("clienttype", "akira");
      ("uiversion", get_value h "build_identifier" "");
      ("browsername", "chrome");
      ("browserversion", str_lower (get_value h "browser_info_version" ""));
      ("osname", str_lower (get_value h "browser_info_os_name" ""));
      ("osversion", get_value h "browser_info_os_version" "") ]%string
  /\ (forall value,
        In value [ str_lower (get_value h "browser_info_version" "");
                   str_lower (get_value h "browser_info_os_name" "") ] ->
        str_lower value = value)
  /\ create_req_params h req_name = "?" +:+ urlencode (req_params h req_name)
  /\ parse_query (create_req_params h req_name) = req_params h req_name
  /\ req_params h "events/engage" !! 1%nat
     = Some ("reqName"%string, "events/engage"%string)
  /\ parse_query (create_req_params h "events/engage") !! 1%nat
     = Some ("reqName"%string, "events/engage"%string)
  /\ (forall value,
        In ("browserversion"%string, value)
           (parse_query (create_req_params h req_name)) ->
        lower_cased_of (get_value h "browser_info_version" "") value)
  /\ (forall value,
        In ("osname"%string, value)
           (parse_query (create_req_params h req_name)) ->
        lower_cased_of (get_value h "browser_info_os_name" "") value).
Proof.
  assert (Hparse : forall name,
    parse_query (create_req_params h name) = req_params h name).
  { intros name. unfold create_req_params.
    change ("?" +:+ ?x) with (String "?" x). unfold parse_query.
    rewrite Ascii.eqb_refl. unfold req_params.
    apply parse_fields_urlencode. }
  split; [reflexivity|]. split.
  - intros value [<- | [<- | []]]; apply str_lower_twice.
  - split; [reflexivity|]. split; [apply Hparse|].
    split; [reflexivity|]. split; [rewrite Hparse; reflexivity|].
    rewrite Hparse. unfold req_params. split; intros value Hin;
      repeat (destruct Hin as [Heq | Hin];
              [try discriminate Heq; injection Heq as <- |]);
      try apply str_lower_lower_cased; destruct Hin.
Qed.

(** ** Further properties *)

(** *** Audio matcher: duplicates, absence, what a result means *)

Lemma find_audio_track_cases language channels tracks :
  (exists t, first_audio_match language channels t tracks)
  \/ Forall (audio_mismatch language channels) tracks.
Proof.
  induction tracks as [|x l IH].
  - right. constructor.
  - destruct (audio_track_matches language channels x) eqn:Hx.
    + left. exists x, [], l. repeat split; [exact Hx | constructor].
    + destruct IH as [(t & before & after & -> & Ht & Hb) | Hall].
      * left. exists t, (x :: before), after. repeat split; auto.
      * right. constructor; assumption.
Qed.

(** X1. With several tracks of the normalized language and the channel
    label, the first one in manifest order is used: its first stream of
    greatest bitrate and its track id are returned, whatever the later
    tracks hold. *)
Theorem find_audio_first_match_wins ps m label t :
  AUDIO_CHANNELS_CONV !! as_channels (currentaudiostream ps) = Some label ->
  first_audio_match (normalized_language ps) label t (audio_tracks m) ->
  at_streams t <> [] ->
  exists s,
    first_max_bitrate s (at_streams t)
    /\ _find_audio_data ps m = Return (a_downloadable_id s, at_new_track_id t).
Proof.
  intros Hlabel Hfirst Hstreams.
  destruct (max_bitrate_first_max _ Hstreams) as (s & Hmax & Hs).
  exists s. split; [exact Hs|].
  rewrite (find_audio_data_first ps m label t Hlabel Hfirst), Hmax.
  reflexivity.
Qed.

(** X2. When the channel count is in the table and no audio track has
    the normalized language and the channel label (in particular when the
    manifest has no audio track), [_find_audio_data] raises [Exception]
    with the message that names that language and that label. *)
Theorem find_audio_not_found ps m label :
  AUDIO_CHANNELS_CONV !! as_channels (currentaudiostream ps) = Some label ->
  Forall (audio_mismatch (normalized_language ps) label) (audio_tracks m) ->
  _find_audio_data ps m
  = Raise (Exception
             ("build_media_tag: unable to find audio data with language: "
              +:+ normalized_language ps +:+ ", channels: " +:+ label)).
Proof.
  intros Hlabel Hnone. unfold _find_audio_data. simpl. rewrite Hlabel.
  apply find_audio_track_none. exact Hnone.
Qed.

(** X3. Whatever [_find_audio_data] returns is the id of a first stream of
    greatest bitrate of the first track with the normalized language and
    the label of a channel count of the table, and the id of that track. *)
Theorem find_audio_return_inv ps m stream_id track_id :
  _find_audio_data ps m = Return (stream_id, track_id) ->
  exists label t s,
    AUDIO_CHANNELS_CONV !! as_channels (currentaudiostream ps) = Some label
    /\ first_audio_match (normalized_language ps) label t (audio_tracks m)
    /\ first_max_bitrate s (at_streams t)
    /\ stream_id = a_downloadable_id s
    /\ track_id = at_new_track_id t.
Proof.
  intros Hret.
  destruct (AUDIO_CHANNELS_CONV !! as_channels (currentaudiostream ps))
    as [label|] eqn:Hlabel.
  - destruct (find_audio_track_cases (normalized_language ps) label
                (audio_tracks m)) as [[t Hfirst] | Hnone].
    + rewrite (find_audio_data_first ps m label t Hlabel Hfirst) in Hret.
      destruct (at_streams t) as [|s0 rest] eqn:Hstreams; [discriminate|].
      destruct (max_bitrate_first_max (s0 :: rest)) as (s & Hmax & Hs);
        [discriminate|].
      rewrite Hmax in Hret. simpl in Hret. injection Hret as <- <-.
      exists label, t, s. rewrite Hstreams. auto.
    + unfold _find_audio_data in Hret. simpl in Hret.
      rewrite Hlabel, (find_audio_track_none _ _ _ Hnone) in Hret.
      discriminate.
  - unfold _find_audio_data in Hret. simpl in Hret. rewrite Hlabel in Hret.
    discriminate.
Qed.

Lemma find_audio_track_filter language channels tracks :
  find_audio_track language channels tracks
  = find_audio_track language channels
      (List.filter (audio_track_matches language channels) tracks).
Proof.
  induction tracks as [|x l IH]; [reflexivity|]. simpl.
  destruct (audio_track_matches language channels x) eqn:Hx; simpl.
  - rewrite Hx. reflexivity.
  - exact IH.
Qed.

Lemma only_audio_match_filter language channels t tracks :
  only_audio_match language channels t tracks ->
  List.filter (audio_track_matches language channels) tracks = [t].
Proof.
  assert (Hnone : forall l, Forall (audio_mismatch language channels) l ->
            List.filter (audio_track_matches language channels) l = []).
  { induction 1 as [|x l Hx _ IH]; [reflexivity|]. simpl.
    rewrite Hx. exact IH. }
  intros (before & after & -> & Ht & Hb & Ha).
  rewrite List.filter_app. simpl. rewrite Ht, (Hnone _ Hb), (Hnone _ Ha).
  reflexivity.
Qed.

(** X4. When exactly one audio track has the normalized language and the
    channel label, the order of the audio tracks does not matter: a
    manifest with the same tracks in another order gives the same
    outcome. *)
Theorem find_audio_order_irrelevant ps m m' label t :
  AUDIO_CHANNELS_CONV !! as_channels (currentaudiostream ps) = Some label ->
  only_audio_match (normalized_language ps) label t (audio_tracks m) ->
  Permutation (audio_tracks m) (audio_tracks m') ->
  _find_audio_data ps m' = _find_audio_data ps m.
Proof.
  intros Hlabel Honly Hperm. unfold _find_audio_data. simpl. rewrite Hlabel.
  rewrite (find_audio_track_filter _ _ (audio_tracks m')),
          (find_audio_track_filter _ _ (audio_tracks m)).
  rewrite (only_audio_match_filter _ _ _ _ Honly).
  assert (Hfilter : Permutation
            (List.filter (audio_track_matches (normalized_language ps) label)
               (audio_tracks m))
            (List.filter (audio_track_matches (normalized_language ps) label)
               (audio_tracks m'))).
  { clear -Hperm. induction Hperm as [|x l l' _ IH|x y l|l l' l'' _ IH1 _ IH2].
    - constructor.
    - simpl. destruct (audio_track_matches _ _ x); [constructor|]; exact IH.
    - simpl. destruct (audio_track_matches _ _ x), (audio_track_matches _ _ y);
        try reflexivity. apply perm_swap.
    - etransitivity; eassumption. }
  rewrite (only_audio_match_filter _ _ _ _ Honly) in Hfilter.
  apply Permutation_singleton_l in Hfilter. rewrite Hfilter. reflexivity.
Qed.

(** *** Video matcher: empty codec, streams that do not match *)

(** X5. When the player reports an empty codec, the [content_profile] of
    a stream plays no part: [_find_video_data] returns the first stream,
    tracks and streams in order, whose [res_w] and [res_h] equal the
    player's width and height, and raises when no stream has them. *)
Theorem find_video_empty_codec ps m :
  vs_codec (currentvideostream ps) = EmptyString ->
  let same_size s :=
    (vs_width (currentvideostream ps) =? v_res_w s)
    && (vs_height (currentvideostream ps) =? v_res_h s) in
  (forall tbefore t tafter sbefore s safter,
      video_tracks m = tbefore ++ t :: tafter ->
      vt_streams t = sbefore ++ s :: safter ->
      same_size s = true ->
      Forall (fun t' => Forall (fun s' => same_size s' = false) (vt_streams t'))
             tbefore ->
      Forall (fun s' => same_size s' = false) sbefore ->
      _find_video_data ps m = Return (v_downloadable_id s, vt_new_track_id t))
  /\ (Forall (fun t' => Forall (fun s' => same_size s' = false) (vt_streams t'))
        (video_tracks m) ->
      forall found, _find_video_data ps m <> Return found).
Proof.
  intros Hcodec same_size.
  assert (Hsame : forall s,
    video_stream_matches EmptyString (vs_width (currentvideostream ps))
      (vs_height (currentvideostream ps)) s = same_size s).
  { intros s. unfold video_stream_matches, same_size.
    destruct (v_content_profile s); reflexivity. }
  unfold _find_video_data. rewrite Hcodec. split.
  - intros tb t ta sb s sa Htracks Hstreams Hs Htb Hsb.
    apply find_video_track_first. exists tb, ta, sb, sa.
    repeat split; try assumption.
    + rewrite Hsame. exact Hs.
    + eapply Forall_impl; [exact Htb|]. intros t' Ht'.
      eapply Forall_impl; [exact Ht'|]. intros s' Hs'.
      unfold video_mismatch. rewrite Hsame. exact Hs'.
    + eapply Forall_impl; [exact Hsb|]. intros s' Hs'.
      unfold video_mismatch. rewrite Hsame. exact Hs'.
  - intros Hnone found. rewrite find_video_track_none; [discriminate|].
    eapply Forall_impl; [exact Hnone|]. intros t' Ht'.
    eapply Forall_impl; [exact Ht'|]. intros s' Hs'.
    unfold video_mismatch. rewrite Hsame. exact Hs'.
Qed.

Lemma find_video_stream_filter codec width height streams :
  find_video_stream codec width height
    (List.filter (video_stream_matches codec width height) streams)
  = find_video_stream codec width height streams.
Proof.
  induction streams as [|x l IH]; [reflexivity|]. simpl.
  destruct (video_stream_matches codec width height x) eqn:Hx; simpl.
  - rewrite Hx. reflexivity.
  - exact IH.
Qed.

(** X6. Streams that do not match are passed over without effect, and so
    are tracks left with no stream: the manifest in which every video
    track keeps only its matching streams gives the same outcome. *)
Theorem find_video_ignores_mismatches ps m :
  let codec := vs_codec (currentvideostream ps) in
  let width := vs_width (currentvideostream ps) in
  let height := vs_height (currentvideostream ps) in
  _find_video_data ps
    {| audio_tracks := audio_tracks m;
       video_tracks :=
         map (matching_streams_only codec width height) (video_tracks m);
       timedtexttracks := timedtexttracks m |}
  = _find_video_data ps m.
Proof.
  intros codec width height. unfold _find_video_data. simpl.
  fold codec width height.
  induction (video_tracks m) as [|t l IH]; [reflexivity|]. simpl.
  rewrite find_video_stream_filter, IH. reflexivity.
Qed.

(** *** Manifests that grow *)

(** X7. Tracks added after the tracks of a manifest change nothing to a
    match: what a matcher returns on a manifest, it returns on every
    manifest that extends it. *)
Theorem matchers_stable_under_extension ps m m' :
  manifest_extends m m' ->
  (forall found,
      _find_audio_data ps m = Return found ->
      _find_audio_data ps m' = Return found)
  /\ (forall found,
        _find_video_data ps m = Return found ->
        _find_video_data ps m' = Return found)
  /\ (forall track_id,
        _find_subtitle_data m = Return track_id ->
        _find_subtitle_data m' = Return track_id).
Proof.
  intros ([amore Ha] & [vmore Hv] & [smore Hs]). repeat split.
  - intros found Hret.
    destruct (AUDIO_CHANNELS_CONV !! as_channels (currentaudiostream ps))
      as [label|] eqn:Hlabel.
    + destruct (find_audio_track_cases (normalized_language ps) label
                  (audio_tracks m)) as [[t Hfirst] | Hnone].
      * rewrite <- Hret.
        rewrite (find_audio_data_first ps m label t Hlabel Hfirst).
        apply (find_audio_data_first ps m' label t Hlabel).
        destruct Hfirst as (before & after & Heq & Ht & Hb).
        exists before, (after ++ amore). repeat split; try assumption.
        rewrite Ha, Heq, <- app_assoc. reflexivity.
      * unfold _find_audio_data in Hret. simpl in Hret.
        rewrite Hlabel, (find_audio_track_none _ _ _ Hnone) in Hret.
        discriminate.
    + unfold _find_audio_data in Hret. simpl in Hret.
      rewrite Hlabel in Hret. discriminate.
  - intros found Hret. unfold _find_video_data in *.
    destruct (find_video_track_return _ _ _ _ _ Hret)
      as (t & s & (tb & ta & sb & sa & Heq & Hst & Hm & Htb & Hsb) & ->).
    apply find_video_track_first. exists tb, (ta ++ vmore), sb, sa.
    repeat split; try assumption.
    rewrite Hv, Heq, <- app_assoc. reflexivity.
  - intros track_id Hret. unfold _find_subtitle_data in *.
    destruct (find_none_track_inv (timedtexttracks m))
      as [(pre & t & post & Heq & Hpre & Ht) | Hall].
    + rewrite Heq, (find_none_track_first _ _ _ Hpre Ht) in Hret.
      rewrite Hs, Heq, <- app_assoc. simpl.
      rewrite (find_none_track_first _ _ _ Hpre Ht). exact Hret.
    + rewrite (find_none_track_none _ Hall) in Hret. discriminate.
Qed.

(** *** The gate and the builder *)

(** X8. The gate is safe for the builder: when [is_media_changed] finds no
    change between two player states, [build_media_tag] gives the same
    outcome for both, on every manifest and at every position. *)
Theorem unchanged_media_same_tag previous ps m position :
  is_media_changed (Some previous) ps = false ->
  build_media_tag ps m position = build_media_tag previous m position.
Proof.
  unfold is_media_changed.
  destruct (video_info_eqb _ _) eqn:Hv; [|discriminate].
  destruct (audio_info_eqb _ _) eqn:Ha; [|discriminate]. intros _.
  apply video_info_eqb_eq in Hv. apply audio_info_eqb_eq in Ha.
  unfold build_media_tag, _find_audio_data, normalized_language,
    _find_video_data.
  rewrite Hv, Ha. reflexivity.
Qed.

(** *** Play times update *)

(** X9. In every outcome [update_play_times_duration] leaves [total] at
    the elapsed seconds times 1000, keeps the downloadable ids, the
    entries after the first and the [text] list; the first audio entry
    gets the new duration; the first video entry gets it only when there
    is an audio entry, because the [IndexError] of an empty audio list
    comes first. It returns exactly when both lists have an entry. *)
Theorem update_play_times_duration_frame pt ps :
  let outcome := fst (update_play_times_duration pt ps) in
  let pt' := snd (update_play_times_duration pt ps) in
  let d := elapsed_seconds ps * 1000 in
  total pt' = d
  /\ text pt' = text pt
  /\ downloadableId <$> audio pt' = downloadableId <$> audio pt
  /\ downloadableId <$> video pt' = downloadableId <$> video pt
  /\ (forall a others, audio pt = a :: others ->
        audio pt' = set_duration d a :: others)
  /\ (forall v others, video pt = v :: others ->
        video pt' = (if audio pt is [] then v else set_duration d v) :: others)
  /\ (outcome = Return tt <-> audio pt <> [] /\ video pt <> [])
  /\ (outcome = Raise IndexError <-> audio pt = [] \/ video pt = []).
Proof.
  unfold update_play_times_duration.
  destruct pt as [tot [|a ar] [|v vr] txt]; simpl;
    (split; [reflexivity|]); (split; [reflexivity|]);
    (split; [reflexivity|]); (split; [reflexivity|]);
    (split; [intros ? ? [= <- <-] || intros ? ? [=]; reflexivity|]);
    (split; [intros ? ? [= <- <-] || intros ? ? [=]; reflexivity|]);
    split; split; try discriminate; try (intros [? ?]; congruence);
    try (intros [? | ?]; congruence); auto.
Qed.

(** X10. The last update wins: updating for one player state and then
    for another leaves the outcome and the play times of the second
    update alone; in particular updating twice for the same state is
    updating once. *)
Theorem update_play_times_duration_last_wins pt ps ps' :
  update_play_times_duration (snd (update_play_times_duration pt ps)) ps'
  = update_play_times_duration pt ps'.
Proof.
  unfold update_play_times_duration.
  destruct pt as [tot [|a ar] [|v vr] txt]; reflexivity.
Qed.

(** X11. The play times that [build_media_tag] returns can always be
    updated: [update_play_times_duration] returns on them, for every
    player state, and leaves the two matched downloadable ids with the
    elapsed seconds times 1000 as duration and total, and no text entry. *)
Theorem build_then_update ps m position pt v_track a_track t_track ps' :
  build_media_tag ps m position = Return (pt, v_track, a_track, t_track) ->
  exists a_id v_id,
    _find_audio_data ps (with_lang_code_changes m) = Return (a_id, a_track)
    /\ _find_video_data ps m = Return (v_id, v_track)
    /\ update_play_times_duration pt ps'
       = (Return tt,
          {| total := elapsed_seconds ps' * 1000;
             audio := [ {| downloadableId := a_id;
                           duration := elapsed_seconds ps' * 1000 |} ];
             video := [ {| downloadableId := v_id;
                           duration := elapsed_seconds ps' * 1000 |} ];
             text := [] |}).
Proof.
  unfold build_media_tag.
  change (_find_video_data ps (with_lang_code_changes m))
    with (_find_video_data ps m).
  destruct (_find_audio_data ps (with_lang_code_changes m))
    as [[a_id a_track']|e]; simpl; [|discriminate].
  destruct (_find_video_data ps m) as [[v_id v_track']|e];
    simpl; [|discriminate].
  destruct (_find_subtitle_data (with_lang_code_changes m)) as [t_track'|e];
    simpl; [|discriminate].
  intros [= <- <- <- <-]. exists a_id, v_id. repeat split.
Qed.

(** *** What the log blob transform sends *)

Lemma json_nested_ind (P : json -> Prop) :
  (forall s, P (JStr s)) ->
  (forall n, P (JInt n)) ->
  (forall items, Forall P items -> P (JList items)) ->
  (forall items, Forall (fun kv => P (snd kv)) items -> P (JDict items)) ->
  forall j, P j.
Proof.
  intros Hstr Hint Hlist Hdict. fix IH 1. intros [s|n|items|items].
  - apply Hstr.
  - apply Hint.
  - apply Hlist. induction items as [|j items IHitems]; constructor.
    + apply IH.
    + exact IHitems.
  - apply Hdict. induction items as [|[k v] items IHitems]; constructor.
    + apply IH.
    + exact IHitems.
Qed.

Lemma escape_blobs_dump_app a b :
  escape_blobs_dump (a +:+ b) = escape_blobs_dump a +:+ escape_blobs_dump b.
Proof.
  unfold escape_blobs_dump. rewrite !str_replace_char_app. reflexivity.
Qed.

Lemma sent_text_app a b : sent_text (a +:+ b) = sent_text a +:+ sent_text b.
Proof. unfold sent_text. rewrite !str_replace_char_app. reflexivity. Qed.

Lemma json_escape_app a b :
  json_escape (a +:+ b) = json_escape a +:+ json_escape b.
Proof.
  induction a as [|c a IH]; [reflexivity|].
  change (String c a +:+ b) with (String c (a +:+ b)). simpl.
  rewrite IH, str_app_assoc. reflexivity.
Qed.

Lemma escape_json_escape_char c :
  escape_blobs_dump (json_escape_char c)
  = json_escape (sent_text (String c EmptyString)).
Proof. each_char c; reflexivity. Qed.

Lemma escape_json_escape s :
  escape_blobs_dump (json_escape s) = json_escape (sent_text s).
Proof.
  induction s as [|c s IH]; [reflexivity|].
  change (String c s) with (String c EmptyString +:+ s) at 2.
  rewrite sent_text_app, json_escape_app, <- IH, <- escape_json_escape_char.
  simpl. apply escape_blobs_dump_app.
Qed.

Lemma escape_json_str s :
  escape_blobs_dump (json_str s) = json_str (sent_text s).
Proof.
  unfold json_str.
  change (String dquote ?x) with (String dquote EmptyString +:+ x).
  rewrite !escape_blobs_dump_app, escape_json_escape. reflexivity.
Qed.

(** Decimal numerals hold neither a space nor a [#]. *)
Lemma escape_uint d :
  escape_blobs_dump (NilEmpty.string_of_uint d) = NilEmpty.string_of_uint d.
Proof.
  induction d as [|d IH|d IH|d IH|d IH|d IH|d IH|d IH|d IH|d IH|d IH];
    [reflexivity|..]; simpl;
    change (String ?c ?x) with (String c EmptyString +:+ x);
    rewrite escape_blobs_dump_app, IH; reflexivity.
Qed.

Lemma escape_str_of_int n : escape_blobs_dump (str_of_int n) = str_of_int n.
Proof.
  unfold str_of_int, NilZero.string_of_int.
  destruct (Z.to_int n) as [d|d].
  - unfold NilZero.string_of_uint. destruct d; try apply escape_uint.
    reflexivity.
  - change (String ?c ?x) with (String c EmptyString +:+ x).
    rewrite escape_blobs_dump_app. f_equal.
    unfold NilZero.string_of_uint. destruct d; try apply escape_uint.
    reflexivity.
Qed.

Lemma escape_concat_comma fields :
  escape_blobs_dump (String.concat ", " fields)
  = String.concat "," (map escape_blobs_dump fields).
Proof.
  induction fields as [|x l IH]; [reflexivity|].
  destruct l as [|y l]; [reflexivity|].
  rewrite (str_concat_cons ", " x) by discriminate.
  change (map escape_blobs_dump (x :: y :: l))
    with (escape_blobs_dump x :: map escape_blobs_dump (y :: l)).
  rewrite (str_concat_cons "," (escape_blobs_dump x)) by discriminate.
  rewrite !escape_blobs_dump_app, IH. reflexivity.
Qed.

(** The transform turns the default serialization of a JSON value into
    the compact serialization of the value with its texts as sent. *)
Lemma escape_json_dumps j :
  escape_blobs_dump (json_dumps j)
  = json_dumps_compact (json_map_str sent_text j).
Proof.
  induction j as [s|n|items IH|items IH] using json_nested_ind.
  - apply escape_json_str.
  - apply escape_str_of_int.
  - simpl. rewrite !escape_blobs_dump_app, escape_concat_comma.
    rewrite !map_map. do 2 f_equal. f_equal.
    induction IH as [|j items Hj _ IHitems]; [reflexivity|].
    simpl. rewrite Hj, IHitems. reflexivity.
  - simpl. rewrite !escape_blobs_dump_app, escape_concat_comma.
    rewrite !map_map. do 2 f_equal. f_equal.
    induction IH as [|[k v] items Hv _ IHitems]; [reflexivity|].
    simpl in *. rewrite IHitems, !escape_blobs_dump_app, escape_json_str, Hv.
    reflexivity.
Qed.

Lemma str_replace_char_new_absent c new s :
  str_contains (String c EmptyString) new = false ->
  str_contains (String c EmptyString)
    (str_replace (String c EmptyString) new s) = false.
Proof.
  intros Hnew. induction s as [|c' s IH]; [reflexivity|].
  rewrite str_replace_char_cons. destruct (ascii_dec c c') as [-> | Hne].
  - rewrite str_contains_char_app, Hnew, IH. reflexivity.
  - rewrite str_contains_char_cons.
    destruct (ascii_dec c c'); [contradiction | exact IH].
Qed.

(** X12. The [logblobs] value is the compact serialization, without a
    space after commas and colons, of the blob container in which every
    text has lost its spaces and then has a space for each [#]; it holds
    no [#]. *)
Theorem logblobs_sent (h : host) :
  generate_logblobs_params h
  = [("logblobs"%string,
      json_dumps_compact
        (json_map_str sent_text
           (JDict [("entries"%string, JList [logblob h])])))]
  /\ forall name value,
       In (name, value) (generate_logblobs_params h) ->
       str_contains "#" value = false.
Proof.
  unfold generate_logblobs_params, blobs_dump. split.
  - rewrite escape_json_dumps. reflexivity.
  - intros name value [[= _ <-] | []]. unfold escape_blobs_dump.
    apply str_replace_char_new_absent. reflexivity.
Qed.

Lemma sent_text_marked s :
  sent_text (str_replace " " "#" s) = str_replace "#" " " s.
Proof.
  induction s as [|c s IH]; [reflexivity|].
  rewrite !str_replace_char_cons.
  destruct (ascii_dec " " c) as [<- | Hspace].
  - rewrite sent_text_app, IH. reflexivity.
  - change (String c ?x) with (String c EmptyString +:+ x) at 1.
    rewrite sent_text_app, IH.
    destruct (ascii_dec "#" c) as [<- | Hmark]; [reflexivity|].
    unfold sent_text. rewrite !str_replace_char_cons.
    destruct (ascii_dec " " c); [contradiction|].
    rewrite str_replace_char_cons.
    destruct (ascii_dec "#" c); [contradiction|]. reflexivity.
Qed.

(** X13. In the blob as sent the user agent keeps its spaces: its text is
    the user agent with a space for each [#], hence the user agent itself
    when it holds no [#]; the texts read from the session table are sent
    without their spaces. *)
Theorem logblobs_user_agent (h : host) :
  let sent := json_map_str sent_text (logblob h) in
  json_get "browserua" sent
  = Some (JStr (str_replace "#" " " (user_agent h)))
  /\ (str_contains "#" (user_agent h) = false ->
      json_get "browserua" sent = Some (JStr (user_agent h)))
  /\ json_get "osplatform" sent
     = Some (JStr (sent_text (get_value h "browser_info_os_name" "")))
  /\ json_get "clver" sent
     = Some (JStr (sent_text (get_value h "client_version" ""))).
Proof.
  simpl. rewrite sent_text_marked. repeat split.
  intros Hmark. rewrite (str_replace_char_absent _ _ _ Hmark). reflexivity.
Qed.

(** *** Request parameters: shape of the string *)

Lemma str_split_urlencode params : forall p,
  str_split "&" (urlencode (p :: params))
  = map (fun '(k, v) => quote_plus k +:+ "=" +:+ quote_plus v) (p :: params).
Proof.
  unfold urlencode.
  induction params as [|q params IH]; intros [name value].
  - simpl. apply str_split_absent. apply field_no_amp.
  - change (map ?f ((name, value) :: q :: params))
      with (f (name, value) :: map f (q :: params)).
    rewrite str_concat_cons by discriminate. cbv beta iota.
    change ("&" +:+ ?x) with (String "&" x).
    rewrite <- str_app_assoc.
    rewrite str_split_app by (rewrite str_app_assoc; apply field_no_amp).
    rewrite str_app_assoc, IH. reflexivity.
Qed.

Lemma str_partition_field name value :
  str_partition "=" (quote_plus name +:+ "=" +:+ quote_plus value)
  = (quote_plus name, quote_plus value).
Proof.
  change ("=" +:+ quote_plus value) with (String "=" (quote_plus value)).
  apply str_partition_app. apply quote_plus_no_sep.
Qed.

(** X14. Whatever the request name and the session table hold,
    separators included, the string of [create_req_params] is a question
    mark followed by exactly eight fields separated by [&], and what
    stands before the first [=] of each field is, in order, one of the
    eight parameter names: a value cannot add or rename a field. *)
Theorem create_req_params_eight_fields (h : host) (req_name : string) :
  exists query,
    create_req_params h req_name = String "?" query
    /\ length (str_split "&" query) = 8%nat
    /\ (fun field => fst (str_partition "=" field)) <$> str_split "&" query
       = [ "reqAttempt"; "reqName"; "clienttype"; "uiversion";
           "browsername"; "browserversion"; "osname"; "osversion" ]%string.
Proof.
  exists (urlencode (req_params h req_name)). split; [reflexivity|].
  unfold req_params. rewrite str_split_urlencode. split; [reflexivity|].
  cbn [fmap list_fmap map]. rewrite !str_partition_field. reflexivity.
Qed.

(** X15. The string of [create_req_params] determines the parameters:
    two calls that give the same string had the same eight values, the
    request name among them. *)
Theorem create_req_params_injective (h h' : host)
    (req_name req_name' : string) :
  create_req_params h req_name = create_req_params h' req_name' ->
  req_params h req_name = req_params h' req_name' /\ req_name = req_name'.
Proof.
  intros Heq.
  apply (f_equal parse_query) in Heq. unfold create_req_params in Heq.
  change (parse_query ("?" +:+ ?x)) with (parse_fields x) in Heq.
  unfold req_params in Heq. rewrite !parse_fields_urlencode in Heq.
  split; [exact Heq|]. congruence.
Qed.

Lemma str_forall_app p a b :
  str_forall p (a +:+ b) = str_forall p a && str_forall p b.
Proof.
  induction a as [|c a IH]; [reflexivity|].
  change (String c a +:+ b) with (String c (a +:+ b)). simpl.
  rewrite IH, andb_assoc. reflexivity.
Qed.

Lemma quote_plus_char_query c :
  str_forall query_char (quote_plus_char c) = true.
Proof. each_char c; reflexivity. Qed.

Lemma quote_plus_query s : str_forall query_char (quote_plus s) = true.
Proof.
  rewrite quote_plus_flat_map. induction s as [|c s IH]; [reflexivity|].
  change (str_flat_map quote_plus_char (String c s))
    with (quote_plus_char c +:+ str_flat_map quote_plus_char s).
  rewrite str_forall_app, quote_plus_char_query, IH. reflexivity.
Qed.

Lemma urlencode_query params : str_forall query_char (urlencode params) = true.
Proof.
  unfold urlencode. induction params as [|[k v] params IH]; [reflexivity|].
  destruct params as [|q params].
  - simpl. rewrite !str_forall_app, !quote_plus_query. reflexivity.
  - change (map ?f ((k, v) :: q :: params))
      with (f (k, v) :: map f (q :: params)).
    rewrite str_concat_cons by discriminate. cbv beta iota.
    rewrite !str_forall_app, !quote_plus_query, IH. reflexivity.
Qed.

(** X16. Whatever the request name and the session table hold, every
    character of the string of [create_req_params] is a letter, a digit,
    one of [_.-~], or one of [?&=+%]: no space, no control character and
    no character beyond ASCII reaches the URL. *)
Theorem create_req_params_query_chars (h : host) (req_name : string) :
  str_forall query_char (create_req_params h req_name) = true.
Proof.
  unfold create_req_params. rewrite str_forall_app, urlencode_query.
  reflexivity.
Qed.

(** *** Failure reporter, twice *)

(** X17. Decorating a function twice changes what it returns no more
    than decorating it once. An instance of [Exception] raised by the
    function is raised again after two dialogs, the second shown in the
    world the first left, when both notifications complete; what is
    raised outside [Exception] is raised again without any dialog. *)
Theorem display_error_info_twice {Args A : Type}
    (func : Args -> world -> result E A * world) (args : Args) (w : world) :
  (forall v w',
      func args w = (Return v, w') ->
      display_error_info (display_error_info func) args w = (Return v, w'))
  /\ (forall exc w' text title shown w1 shown' w2,
        func args w = (Raise exc, w') ->
        is_Exception exc = true ->
        exc_str exc = Return text ->
        get_local_string 30028 = Return title ->
        show_error_info title (class_name exc +:+ ": " +:+ text)
          false (is_MSLError exc) w' = (Return shown, w1) ->
        show_error_info title (class_name exc +:+ ": " +:+ text)
          false (is_MSLError exc) w1 = (Return shown', w2) ->
        display_error_info (display_error_info func) args w
        = (Raise exc, w2))
  /\ (forall exc w',
        func args w = (Raise exc, w') ->
        is_Exception exc = false ->
        display_error_info (display_error_info func) args w
        = (Raise exc, w')).
Proof.
  assert (Hflag : forall exc text,
    String.eqb (class_name exc +:+ ": " +:+ text) "" = false).
  { intros exc text. destruct (class_name exc); reflexivity. }
  unfold display_error_info. repeat split.
  - intros v w' ->. reflexivity.
  - intros exc w' text title shown w1 shown' w2 Hfunc Hexc Htext Htitle H1 H2.
    rewrite Hfunc, Hexc, Htext, Htitle, Hflag, H1. simpl.
    rewrite ?Hexc, ?Htext, ?Htitle, ?Hflag, H2. reflexivity.
  - intros exc w' Hfunc Hexc. rewrite Hfunc, Hexc. simpl.
    rewrite ?Hexc. reflexivity.
Qed.

(** *** Video matcher: a coarser codec *)

Lemma str_contains_trans a b c :
  str_contains a b = true -> str_contains b c = true ->
  str_contains a c = true.
Proof.
  rewrite !str_contains_iff.
  intros (pre & post & ->) (pre' & post' & ->).
  exists (pre' +:+ pre), (post +:+ post').
  rewrite !str_app_assoc. reflexivity.
Qed.

Lemma find_video_track_cases codec width height tracks :
  (exists found, find_video_track codec width height tracks = Return found)
  \/ Forall (fun t => Forall (video_mismatch codec width height) (vt_streams t))
            tracks.
Proof.
  induction tracks as [|t l IH]; [right; constructor|]. simpl.
  destruct (find_video_stream codec width height (vt_streams t)) as [s|] eqn:Ht.
  - left. eexists. reflexivity.
  - destruct IH as [Hfound | Hnone]; [left; exact Hfound|].
    right. constructor; [|exact Hnone]. apply find_video_stream_none. exact Ht.
Qed.

(** X18. A codec string that is part of another matches at least as much:
    when two players report the same width and height and the codec of the
    first is a substring of the codec of the second, every stream that
    matches for the second matches for the first, and [_find_video_data]
    returns for the first whenever it returns for the second. *)
Theorem find_video_coarser_codec ps ps' m :
  vs_width (currentvideostream ps) = vs_width (currentvideostream ps') ->
  vs_height (currentvideostream ps) = vs_height (currentvideostream ps') ->
  str_contains (vs_codec (currentvideostream ps))
               (vs_codec (currentvideostream ps')) = true ->
  (forall s,
      video_stream_matches (vs_codec (currentvideostream ps'))
        (vs_width (currentvideostream ps')) (vs_height (currentvideostream ps'))
        s = true ->
      video_stream_matches (vs_codec (currentvideostream ps))
        (vs_width (currentvideostream ps)) (vs_height (currentvideostream ps))
        s = true)
  /\ (forall found',
        _find_video_data ps' m = Return found' ->
        exists found, _find_video_data ps m = Return found).
Proof.
  intros Hw Hh Hsub.
  assert (Hmatch : forall s,
    video_stream_matches (vs_codec (currentvideostream ps'))
      (vs_width (currentvideostream ps')) (vs_height (currentvideostream ps'))
      s = true ->
    video_stream_matches (vs_codec (currentvideostream ps))
      (vs_width (currentvideostream ps)) (vs_height (currentvideostream ps))
      s = true).
  { intros s. unfold video_stream_matches. rewrite Hw, Hh, !andb_true_iff.
    intros [[Hcodec ->] ->]. repeat split.
    exact (str_contains_trans _ _ _ Hsub Hcodec). }
  split; [exact Hmatch|]. intros found' Hret. unfold _find_video_data in *.
  destruct (find_video_track_cases (vs_codec (currentvideostream ps))
              (vs_width (currentvideostream ps))
              (vs_height (currentvideostream ps)) (video_tracks m))
    as [Hfound | Hnone]; [exact Hfound|].
  destruct (find_video_track_return _ _ _ _ _ Hret)
    as (t & s & (tb & ta & sb & sa & Heq & Hst & Hs & _ & _) & _).
  apply Hmatch in Hs. rewrite Heq in Hnone.
  apply Forall_app in Hnone. destruct Hnone as [_ Hnone].
  apply Forall_cons in Hnone. destruct Hnone as [Ht _].
  rewrite Hst in Ht. apply Forall_app in Ht. destruct Ht as [_ Ht].
  apply Forall_cons in Ht. destruct Ht as [Hmis _].
  unfold video_mismatch in Hmis. congruence.
Qed.

End MslUtils.

(** ** The statements on the sample data *)

(** English 5.1 sound on the sample manifest: stream B, the first of the
    two streams of bitrate 300, is chosen. *)
Lemma find_audio_max_bitrate_witness :
  exists s,
    first_max_bitrate s (at_streams track_en_51)
    /\ _find_audio_data sample_convert_language_iso sample_player
         sample_manifest
       = Return (a_downloadable_id s, at_new_track_id track_en_51).
Proof.
  apply (find_audio_max_bitrate sample_convert_language_iso
           sample_player sample_manifest "5.1" track_en_51).
  - reflexivity.
  - exists [track_en_stereo], []. repeat split.
    + repeat constructor.
    + constructor.
  - discriminate.
Defined.

(** The one English 5.1 track of [manifest_no_stream] has no stream: the
    premises of the claim hold, and no stream is returned. *)
Lemma find_audio_no_stream_counterexample :
  AUDIO_CHANNELS_CONV !! as_channels (currentaudiostream sample_player)
  = Some "5.1"%string
  /\ only_audio_match
       (normalized_language sample_convert_language_iso sample_player) "5.1"
       track_en_51_no_stream (audio_tracks manifest_no_stream)
  /\ _find_audio_data sample_convert_language_iso sample_player
       manifest_no_stream = Raise ValueError
  /\ ~ (exists s,
         first_max_bitrate s (at_streams track_en_51_no_stream)
         /\ _find_audio_data sample_convert_language_iso sample_player
              manifest_no_stream
            = Return (a_downloadable_id s,
                      at_new_track_id track_en_51_no_stream)).
Proof.
  split; [reflexivity|]. split.
  - exists [track_en_stereo], []. repeat split.
    + repeat constructor.
    + constructor.
  - split; [reflexivity|]. intros (s & _ & Hret). discriminate Hret.
Qed.

Lemma find_audio_empty_streams_witness :
  _find_audio_data sample_convert_language_iso sample_player
    manifest_no_stream_first = Raise ValueError
  /\ _find_audio_data sample_convert_language_iso sample_player
       manifest_no_stream_first
     <> Raise (audio_not_found
                 (normalized_language sample_convert_language_iso sample_player)
                 "5.1")
  /\ forall found,
       _find_audio_data sample_convert_language_iso sample_player
         manifest_no_stream_first <> Return found.
Proof.
  apply (find_audio_empty_streams sample_convert_language_iso
           sample_player manifest_no_stream_first "5.1" track_en_51_no_stream).
  - reflexivity.
  - exists [track_en_stereo], [track_en_51]. repeat split.
    repeat constructor.
  - reflexivity.
Defined.

Lemma channel_table_spec_witness :
  AUDIO_CHANNELS_CONV !! 4 = None
  /\ forall ps m,
       as_channels (currentaudiostream ps) = 4 ->
       _find_audio_data sample_convert_language_iso ps m = Raise (KeyError 4).
Proof.
  apply (proj1 (proj2 (proj2 (proj2 (proj2
           (channel_table_spec sample_convert_language_iso))))) 4);
    discriminate.
Defined.

Lemma find_video_spec_witness :
  _find_video_data sample_player sample_manifest
  = Return (v_downloadable_id video_1080, vt_new_track_id video_track_0).
Proof.
  apply (proj1 (find_video_spec sample_player sample_manifest)
           video_track_0 video_1080).
  exists [], [], [video_720], []. repeat split.
  - constructor.
  - repeat constructor.
Defined.

Lemma build_media_tag_spec_witness :
  build_media_tag sample_convert_language_iso sample_apply_lang_code_changes
    sample_player sample_manifest 5000
  = Return ({| total := 4999;
               audio := [ {| downloadableId := "B"; duration := 4999 |} ];
               video := [ {| downloadableId := "V1080"; duration := 4999 |} ];
               text := [] |},
            vt_new_track_id video_track_0, at_new_track_id track_en_51,
            st_new_track_id sub_track_none).
Proof.
  apply (proj1 (build_media_tag_spec sample_convert_language_iso
                  sample_apply_lang_code_changes
                  sample_player sample_manifest 5000)
           "B"%string (at_new_track_id track_en_51)
           "V1080"%string (vt_new_track_id video_track_0)
           (st_new_track_id sub_track_none));
    reflexivity.
Defined.

Lemma is_media_changed_spec_witness :
  is_media_changed (Some sample_player) sample_player_later = false.
Proof.
  apply (proj1 (proj2 is_media_changed_spec) sample_player sample_player_later);
    reflexivity.
Defined.


Lemma display_error_info_spec_witness :
  display_error_info sample_local_string (list error_dialog)
    sample_show_error_info sample_operation (-1) []
  = (Raise negative_argument,
     [ {| dlg_title := "Netflix error";
          dlg_message := "MSLError: negative argument";
          dlg_unknown_error := false; dlg_netflix_error := true |} ]).
Proof.
  apply (proj1 (proj2 (display_error_info_spec sample_local_string
                         (list error_dialog) sample_show_error_info
                         sample_operation (-1) []))
           negative_argument [] "negative argument"%string
           "Netflix error"%string tt);
    reflexivity.
Defined.

(** An interrupt from the keyboard passes the decorator without a dialog,
    and a presentation layer that raises has its exception take the place
    of the one the function raised. *)
Lemma display_error_info_counterexample :
  (interrupted_operation 1 [] = (Raise keyboard_interrupt, [])
   /\ display_error_info sample_local_string (list error_dialog)
        sample_show_error_info interrupted_operation 1 []
      = (Raise keyboard_interrupt, []))
  /\ (sample_operation (-1) [] = (Raise negative_argument, [])
      /\ display_error_info sample_local_string (list error_dialog)
           broken_show_error_info sample_operation (-1) []
         = (Raise no_window, [])
      /\ no_window <> negative_argument).
Proof. repeat split. discriminate. Qed.

(** The sample host stores the OS name [Mac OS X]: the query string
    carries [mac os x]. *)
Lemma create_req_params_spec_witness :
  lower_cased_of (get_value sample_host "browser_info_os_name" "") "mac os x".
Proof.
  apply (proj2 (proj2 (proj2 (proj2 (proj2 (proj2 (proj2
           (create_req_params_spec sample_host "events/engage")))))))).
  vm_compute. do 6 right. left. reflexivity.
Defined.

(** C4. The claim fails on the code at the sample host, whose session
    table holds the OS name [Mac OS X]. The serialized blob holds that
    name with its spaces, the string sent holds [MacOSX], like the string
    sent for the host that stores [MacOSX], while the spaces of the user
    agent, kept as [#] until the last [replace], are sent; the first
    [replace] leaves the serialized blob as it is, and the string sent
    opens with bare quotes around [entries] and holds no quote with a
    backslash before it. The two hosts have different
    serialized blobs and the same string sent: no function gives the
    serialized blob back. *)
Theorem logblobs_escape_failing_input :
  get_value sample_host "browser_info_os_name" "" = "Mac OS X"%string
  /\ str_contains "Mac OS X" (blobs_dump sample_host) = true
  /\ str_contains "Mac OS X" (escape_blobs_dump (blobs_dump sample_host))
     = false
  /\ str_contains "MacOSX" (escape_blobs_dump (blobs_dump sample_host)) = true
  /\ str_contains "(X11; Linux x86_64)"
       (escape_blobs_dump (blobs_dump sample_host)) = true
  /\ str_replace (String dquote EmptyString) (String dquote EmptyString)
       (blobs_dump sample_host) = blobs_dump sample_host
  /\ str_contains (String "\"%char (String dquote EmptyString))
       (escape_blobs_dump (blobs_dump sample_host)) = false
  /\ String.prefix
       ("{" +:+ String dquote ("entries" +:+ String dquote ":[{"))
       (escape_blobs_dump (blobs_dump sample_host)) = true
  /\ blobs_dump sample_host <> blobs_dump sample_host_packed
  /\ generate_logblobs_params sample_host
     = generate_logblobs_params sample_host_packed
  /\ ~ (exists decode : string -> string,
         forall h, decode (escape_blobs_dump (blobs_dump h)) = blobs_dump h).
Proof.
  assert (Hne : blobs_dump sample_host <> blobs_dump sample_host_packed).
  { vm_compute. discriminate. }
  assert (Heq : escape_blobs_dump (blobs_dump sample_host)
                = escape_blobs_dump (blobs_dump sample_host_packed)).
  { vm_compute. reflexivity. }
  split; [vm_compute; reflexivity|]. split; [vm_compute; reflexivity|].
  split; [vm_compute; reflexivity|]. split; [vm_compute; reflexivity|].
  split; [vm_compute; reflexivity|]. split; [vm_compute; reflexivity|].
  split; [vm_compute; reflexivity|]. split; [vm_compute; reflexivity|].
  split; [exact Hne|].
  split; [unfold generate_logblobs_params; rewrite Heq; reflexivity|].
  intros [decode Hdecode]. apply Hne.
  rewrite <- (Hdecode sample_host), <- (Hdecode sample_host_packed), Heq.
  reflexivity.
Qed.

(** ** Further statements on the sample data *)

Lemma find_audio_first_match_wins_witness :
  exists s,
    first_max_bitrate s (at_streams track_en_51)
    /\ _find_audio_data sample_convert_language_iso sample_player
         manifest_two_matches
       = Return (a_downloadable_id s, at_new_track_id track_en_51).
Proof.
  apply (find_audio_first_match_wins sample_convert_language_iso
           sample_player manifest_two_matches "5.1" track_en_51).
  - reflexivity.
  - exists [track_en_stereo], [track_en_51_low]. repeat split.
    repeat constructor.
  - discriminate.
Defined.

Lemma find_audio_not_found_witness :
  _find_audio_data sample_convert_language_iso player_french sample_manifest
  = Raise (Exception
             ("build_media_tag: unable to find audio data with language: "
              +:+ "fr, channels: 5.1")).
Proof.
  apply (find_audio_not_found sample_convert_language_iso
           player_french sample_manifest "5.1").
  - reflexivity.
  - repeat constructor.
Defined.

Lemma find_audio_return_inv_witness :
  exists label t s,
    AUDIO_CHANNELS_CONV !! as_channels (currentaudiostream sample_player)
    = Some label
    /\ first_audio_match
         (normalized_language sample_convert_language_iso sample_player)
         label t (audio_tracks sample_manifest)
    /\ first_max_bitrate s (at_streams t)
    /\ "B"%string = a_downloadable_id s
    /\ "A:2:1;6;en;0"%string = at_new_track_id t.
Proof.
  apply (find_audio_return_inv sample_convert_language_iso
           sample_player sample_manifest).
  reflexivity.
Defined.

Lemma find_audio_order_irrelevant_witness :
  _find_audio_data sample_convert_language_iso sample_player
    manifest_reordered
  = _find_audio_data sample_convert_language_iso sample_player sample_manifest.
Proof.
  apply (find_audio_order_irrelevant sample_convert_language_iso
           sample_player sample_manifest manifest_reordered
           "5.1" track_en_51).
  - reflexivity.
  - exists [track_en_stereo], []. repeat split.
    + repeat constructor.
    + constructor.
  - apply perm_swap.
Defined.

Lemma find_video_empty_codec_witness :
  _find_video_data player_no_codec sample_manifest
  = Return (v_downloadable_id video_1080, vt_new_track_id video_track_0).
Proof.
  apply (proj1 (find_video_empty_codec player_no_codec sample_manifest eq_refl)
           [] video_track_0 [] [video_720] video_1080 []);
    try reflexivity; repeat constructor.
Defined.

Lemma matchers_stable_under_extension_witness :
  _find_audio_data sample_convert_language_iso sample_player
    manifest_two_matches
  = Return ("B"%string, "A:2:1;6;en;0"%string).
Proof.
  apply (proj1 (matchers_stable_under_extension sample_convert_language_iso
                  sample_player sample_manifest manifest_two_matches
                  (conj (ex_intro _ [track_en_51_low] eq_refl)
                     (conj (ex_intro _ [] eq_refl)
                           (ex_intro _ [] eq_refl))))).
  reflexivity.
Defined.

Lemma unchanged_media_same_tag_witness :
  build_media_tag sample_convert_language_iso sample_apply_lang_code_changes
    sample_player_later sample_manifest 5000
  = build_media_tag sample_convert_language_iso sample_apply_lang_code_changes
      sample_player sample_manifest 5000.
Proof.
  apply (unchanged_media_same_tag sample_convert_language_iso
           sample_apply_lang_code_changes
           sample_player sample_player_later sample_manifest 5000).
  reflexivity.
Defined.

Lemma update_play_times_duration_frame_witness :
  audio (snd (update_play_times_duration play_times_one_audio sample_player))
  = set_duration 5000 {| downloadableId := "B"; duration := 4999 |} :: [].
Proof.
  apply (proj1 (proj2 (proj2 (proj2 (proj2
           (update_play_times_duration_frame play_times_one_audio
              sample_player)))))).
  reflexivity.
Defined.

Lemma build_then_update_witness :
  exists a_id v_id,
    _find_audio_data sample_convert_language_iso sample_player
      (with_lang_code_changes sample_apply_lang_code_changes sample_manifest)
    = Return (a_id, at_new_track_id track_en_51)
    /\ _find_video_data sample_player sample_manifest
       = Return (v_id, vt_new_track_id video_track_0)
    /\ update_play_times_duration
         {| total := 4999;
            audio := [ {| downloadableId := "B"; duration := 4999 |} ];
            video := [ {| downloadableId := "V1080"; duration := 4999 |} ];
            text := [] |}
         sample_player_later
       = (Return tt,
          {| total := elapsed_seconds sample_player_later * 1000;
             audio := [ {| downloadableId := a_id;
                           duration := elapsed_seconds sample_player_later
                                       * 1000 |} ];
             video := [ {| downloadableId := v_id;
                           duration := elapsed_seconds sample_player_later
                                       * 1000 |} ];
             text := [] |}).
Proof.
  apply (build_then_update sample_convert_language_iso
           sample_apply_lang_code_changes sample_player sample_manifest 5000
           _ _ _ (st_new_track_id sub_track_none) sample_player_later).
  reflexivity.
Defined.

Lemma logblobs_sent_witness :
  str_contains "#" (escape_blobs_dump (blobs_dump sample_host)) = false.
Proof.
  apply (proj2 (logblobs_sent sample_host) "logblobs"%string).
  left. reflexivity.
Defined.

Lemma logblobs_user_agent_witness :
  json_get "browserua" (json_map_str sent_text (logblob sample_host))
  = Some (JStr (user_agent sample_host)).
Proof.
  apply (proj1 (proj2 (logblobs_user_agent sample_host))).
  reflexivity.
Defined.

Lemma create_req_params_injective_witness :
  req_params sample_host "events/engage"
  = req_params sample_host_small_screen "events/engage"
  /\ "events/engage"%string = "events/engage"%string.
Proof.
  apply (create_req_params_injective sample_host sample_host_small_screen
           "events/engage" "events/engage").
  vm_compute. reflexivity.
Defined.

Lemma display_error_info_twice_witness :
  display_error_info sample_local_string (list error_dialog)
    sample_show_error_info
    (display_error_info sample_local_string (list error_dialog)
       sample_show_error_info sample_operation) (-1) []
  = (Raise negative_argument,
     [ {| dlg_title := "Netflix error";
          dlg_message := "MSLError: negative argument";
          dlg_unknown_error := false; dlg_netflix_error := true |};
       {| dlg_title := "Netflix error";
          dlg_message := "MSLError: negative argument";
          dlg_unknown_error := false; dlg_netflix_error := true |} ]).
Proof.
  apply (proj1 (proj2 (display_error_info_twice sample_local_string
                         (list error_dialog) sample_show_error_info
                         sample_operation (-1) []))
           negative_argument [] "negative argument"%string
           "Netflix error"%string tt
           [ {| dlg_title := "Netflix error";
                dlg_message := "MSLError: negative argument";
                dlg_unknown_error := false; dlg_netflix_error := true |} ]
           tt);
    reflexivity.
Defined.

Lemma find_video_coarser_codec_witness :
  exists found, _find_video_data player_avc sample_manifest = Return found.
Proof.
  apply (proj2 (find_video_coarser_codec player_avc sample_player
                  sample_manifest eq_refl eq_refl eq_refl)
           ("V1080"%string, "V:2:1;2;;default;-1;none;-1;"%string)).
  reflexivity.
Defined.
